(** * plugin-ao: the AO service adapter, its error normalisation, the result
      formatter and the action pre-checks, embedded from the TypeScript sources.

    Sources embedded here:
    - [src/services/AOService.ts]      the [AOService] class,
    - [src/utils/errors.ts]            [AOErrorCode], [AOError], [handleAOError],
    - [src/utils/format.ts]            [formatAOResult],
    - [src/actions/*.action.ts]        the four zod schemas and the [validate]
                                       pre-check of each action. *)

From Stdlib Require Import ZArith Ascii String List Bool Lia DecimalString.
From stdpp Require Import base option gmap strings list.

Local Open Scope string_scope.
Set Warnings "-register-all".

(** ** JavaScript values

    The values that reach this code are JSON-like: payloads come out of
    [JSON.parse], configuration objects hold strings and numbers, and the results
    of the external client are opaque JSON.  [VObj] lists the own properties of an
    object in enumeration order.  [VNum] carries the integer-valued numbers (the
    ones printed in plain decimal); strings are sequences of code units below 256. *)

Inductive value : Type :=
| VUndefined
| VNull
| VBool (b : bool)
| VNum (z : Z)
| VStr (s : string)
| VArr (items : list value)
| VObj (props : list (string * value)).

(** [o.k] on an object value: the property, or [undefined]. *)
Fixpoint get_prop (k : string) (props : list (string * value)) : value :=
  match props with
  | [] => VUndefined
  | (k', v) :: rest => if String.eqb k k' then v else get_prop k rest
  end.

(** ToBoolean. *)
Definition truthy (v : value) : bool :=
  match v with
  | VUndefined | VNull => false
  | VBool b => b
  | VNum z => negb (Z.eqb z 0)
  | VStr s => negb (String.eqb s "")
  | VArr _ | VObj _ => true
  end.

Definition Z_to_string (z : Z) : string := NilEmpty.string_of_int (Z.to_int z).
Definition nat_to_string (n : nat) : string := Z_to_string (Z.of_nat n).

(** [String(v)] (ToString).  Array elements that are [null] or [undefined] print as
    the empty string; a plain object prints as [[object Object]]. *)
Fixpoint js_String (v : value) : string :=
  match v with
  | VUndefined => "undefined"
  | VNull => "null"
  | VBool true => "true"
  | VBool false => "false"
  | VNum z => Z_to_string z
  | VStr s => s
  | VArr items =>
      String.concat ","
        (List.map (fun x => match x with
                            | VUndefined | VNull => ""
                            | _ => js_String x
                            end) items)
  | VObj _ => "[object Object]"
  end.

(** ** [String.prototype.includes] *)

Fixpoint includes (search s : string) : bool :=
  if String.prefix search s then true
  else match s with
       | EmptyString => false
       | String _ rest => includes search rest
       end.

(** ** [JSON.stringify (v, null, 2)] *)

Definition nl : string := String "010"%char EmptyString.
Definition dq : string := String "034"%char EmptyString.
Definition bs : string := String "092"%char EmptyString.

Definition hex_digit (n : nat) : string :=
  match n with
  | 0 => "0" | 1 => "1" | 2 => "2" | 3 => "3" | 4 => "4" | 5 => "5" | 6 => "6"
  | 7 => "7" | 8 => "8" | 9 => "9" | 10 => "a" | 11 => "b" | 12 => "c"
  | 13 => "d" | 14 => "e" | _ => "f"
  end.

(** One code unit of QuoteJSONString. *)
Definition quote_char (c : ascii) : string :=
  let n := nat_of_ascii c in
  if Nat.eqb n 8 then bs ++ "b"
  else if Nat.eqb n 9 then bs ++ "t"
  else if Nat.eqb n 10 then bs ++ "n"
  else if Nat.eqb n 12 then bs ++ "f"
  else if Nat.eqb n 13 then bs ++ "r"
  else if Nat.eqb n 34 then bs ++ dq
  else if Nat.eqb n 92 then bs ++ bs
  else if Nat.ltb n 32 then bs ++ "u00" ++ hex_digit (n / 16) ++ hex_digit (n mod 16)
  else String c EmptyString.

Fixpoint quote_body (s : string) : string :=
  match s with
  | EmptyString => EmptyString
  | String c rest => quote_char c ++ quote_body rest
  end.

Definition quote_json (s : string) : string := dq ++ quote_body s ++ dq.

(** SerializeJSONProperty with a gap of two spaces; [None] is the [undefined]
    that [JSON.stringify] returns for a value it does not serialise. *)
Fixpoint serialize (indent : string) (v : value) : option string :=
  match v with
  | VUndefined => None
  | VNull => Some "null"
  | VBool true => Some "true"
  | VBool false => Some "false"
  | VNum z => Some (Z_to_string z)
  | VStr s => Some (quote_json s)
  | VArr items =>
      let stepback := indent in
      let indent := indent ++ "  " in
      let partial :=
        List.map (fun x => match serialize indent x with
                           | Some str => str
                           | None => "null"
                           end) items in
      Some (match partial with
            | [] => "[]"
            | _ => "[" ++ nl ++ indent
                   ++ String.concat ("," ++ nl ++ indent) partial
                   ++ nl ++ stepback ++ "]"
            end)
  | VObj props =>
      let stepback := indent in
      let indent := indent ++ "  " in
      let partial :=
        List.flat_map (fun kv => match serialize indent (snd kv) with
                                 | Some str => [quote_json (fst kv) ++ ": " ++ str]
                                 | None => []
                                 end) props in
      Some (match partial with
            | [] => "{}"
            | _ => "{" ++ nl ++ indent
                   ++ String.concat ("," ++ nl ++ indent) partial
                   ++ nl ++ stepback ++ "}"
            end)
  end.

(** [`${JSON.stringify (v, null, 2)}`]: the template literal prints the
    [undefined] result as the text [undefined]. *)
Definition JSON_stringify_2 (v : value) : string :=
  match serialize "" v with
  | Some s => s
  | None => "undefined"
  end.

(** ** [src/utils/errors.ts] *)

Inductive AOErrorCode : Type :=
| VALIDATION_ERROR
| NETWORK_ERROR
| PROTOCOL_ERROR
| SECURITY_ERROR
| INSUFFICIENT_BALANCE
| TRANSACTION_FAILED
| UNAUTHORIZED
| SERVICE_NOT_INITIALIZED
| CONFIGURATION_ERROR.

Module AOErrorResponse.
Record t : Type := mk {
  code : AOErrorCode;
  message : string;
  details : value;
  suggestions : option (list string)
}.
End AOErrorResponse.

(** The class [AOError extends Error]: an [Error] (with [name = AOError]) that
    also carries a code, details and suggestions. *)
Module AOError.
Record t : Type := mk {
  code : AOErrorCode;
  message : string;
  details : value;
  suggestions : option (list string)
}.

Definition toResponse (this : t) : AOErrorResponse.t :=
  {| AOErrorResponse.code := code this;
     AOErrorResponse.message := message this;
     AOErrorResponse.details := details this;
     AOErrorResponse.suggestions := suggestions this |}.
End AOError.

(** What a [throw] can carry ([error : unknown] in a [catch]): an [AOError]; an
    [Error] instance that prints as [Error.prototype.toString] has it (its [name]
    and [message]); the [ZodError] of a failed [parseAsync], an [Error] instance
    whose own [toString] gives its [message] alone; or any other value. *)
Inductive thrown : Type :=
| TAOError (e : AOError.t)
| TError (name message : string)
| TZodError (message : string)
| TValue (v : value).

(** [new Error (message)]. *)
Definition new_Error (message : string) : thrown := TError "Error" message.

Definition instanceof_AOError (e : thrown) : bool :=
  match e with TAOError _ => true | _ => false end.


(** [Error.prototype.toString]. *)
Definition Error_toString (name message : string) : string :=
  if String.eqb name "" then message
  else if String.eqb message "" then name
  else name ++ ": " ++ message.

(** [String(error)] on a caught value. *)
Definition String_of_thrown (e : thrown) : string :=
  match e with
  | TAOError a => Error_toString "AOError" (AOError.message a)
  | TError name message => Error_toString name message
  | TZodError message => message
  | TValue v => js_String v
  end.

(** ** Effects: results, the world, and a state-and-exception monad *)

Inductive Result (A : Type) : Type :=
| Ok (a : A)
| Throw (e : thrown).
Arguments Ok {A} a.
Arguments Throw {A} e.

Inductive LogLevel : Type := LogInfo | LogError.

(** A tag of a message or spawn: [{ name, value }]. *)
Record Tag : Type := mkTag { tag_name : string; tag_value : string }.

(** An opaque signer object made by [createSigner]. *)
Inductive Signer : Type := SignerHandle (id : nat).

(** The argument objects handed to the primitives of the external client. *)
Record SpawnArgs : Type := mkSpawnArgs {
  spawn_module : string;
  spawn_scheduler : string;
  spawn_signer : option Signer;
  spawn_tags : option (list Tag);
  spawn_data : option string
}.

Record MessageArgs : Type := mkMessageArgs {
  message_process : string;
  message_data : string;
  message_tags : option (list Tag);
  message_anchor : option string;
  message_signer : option Signer
}.

Record ResultArgs : Type := mkResultArgs {
  result_process : string;
  result_message : string
}.

Record DryrunArgs : Type := mkDryrunArgs {
  dryrun_process : string;
  dryrun_data : string;
  dryrun_tags : option (list Tag);
  dryrun_anchor : option string
}.

(** [AOResult] of [src/types]. *)
Record AOResult : Type := mkAOResult {
  Output : value;
  Messages : list value;
  Spawns : list value;
  Error : value
}.

(** Everything the code does to the outside, in order: the logger and the six
    primitives imported from the external client. *)
Inductive Event : Type :=
| ELog (level : LogLevel) (text : string) (arg : option thrown)
| ECreateSigner (wallet : value)
| EConnect (args : gmap string value)
| ESpawn (args : SpawnArgs)
| EMessage (args : MessageArgs)
| EResult (args : ResultArgs)
| EDryrun (args : DryrunArgs).

(** The world outside an object: the process-wide store [global.__aoConfig] and
    the trace of events so far (latest last). *)
Record World : Type := mkWorld {
  aoConfig : option (gmap string value);
  trace : list Event
}.

Definition emit (ev : Event) (w : World) : World :=
  {| aoConfig := aoConfig w; trace := trace w ++ [ev] |}.

Definition M (S A : Type) : Type := S -> Result A * S.

Definition ret {S A} (a : A) : M S A := fun s => (Ok a, s).

Definition bind {S A B} (m : M S A) (k : A -> M S B) : M S B :=
  fun s => match m s with
           | (Ok a, s') => k a s'
           | (Throw e, s') => (Throw e, s')
           end.

Definition throw {S A} (e : thrown) : M S A := fun s => (Throw e, s).

(** [try { body } catch (error) { handler }]. *)
Definition try_catch {S A} (body : M S A) (handler : thrown -> M S A) : M S A :=
  fun s => match body s with
           | (Ok a, s') => (Ok a, s')
           | (Throw e, s') => handler e s'
           end.

Declare Scope m_scope.
Delimit Scope m_scope with m.
Notation "'let!' x ':=' m 'in' k" := (bind m (fun x => k))
  (at level 10, x name, m at level 100, k at level 200) : m_scope.
Local Open Scope m_scope.

Definition logger_info (text : string) : M World unit :=
  fun w => (Ok tt, emit (ELog LogInfo text None) w).

Definition logger_error (text : string) (error : thrown) : M World unit :=
  fun w => (Ok tt, emit (ELog LogError text (Some error)) w).

(** [{ originalError: s }]. *)
Definition originalError (s : string) : value := VObj [("originalError", VStr s)].

Definition handleAOError (error : thrown) : M World AOErrorResponse.t :=
  let! _ := logger_error "AO plugin error:" error in
  match error with
  | TAOError e => ret (AOError.toResponse e)
  | _ =>
    let generic :=
      AOError.toResponse
        (AOError.mk PROTOCOL_ERROR "An unexpected error occurred"
           (originalError (String_of_thrown error))
           (Some ["Please try again"; "Contact support if the issue persists"])) in
    match error with
    | TError _ message | TZodError message =>
      if includes "insufficient funds" message then
        ret (AOError.toResponse
               (AOError.mk INSUFFICIENT_BALANCE
                  "Insufficient balance to complete transaction"
                  (originalError message)
                  (Some ["Check your wallet balance";
                         "Ensure you have enough AR for fees"])))
      else if includes "network" message || includes "connection" message then
        ret (AOError.toResponse
               (AOError.mk NETWORK_ERROR "Network connection error"
                  (originalError message)
                  (Some ["Check your internet connection";
                         "Verify gateway is accessible"])))
      else if includes "reverted" message then
        ret (AOError.toResponse
               (AOError.mk TRANSACTION_FAILED "Transaction reverted on chain"
                  (originalError message)
                  (Some ["Check transaction parameters";
                         "Ensure contract state allows this operation"])))
      else ret generic
    | _ => ret generic
    end
  end.

(** ** [src/utils/format.ts] *)

Definition formatAOResult (result : AOResult) : string :=
  let lines :=
    [ "Output: " ++ JSON_stringify_2 (Output result);
      "Messages: " ++ nat_to_string (List.length (Messages result)) ++ " message(s)";
      "Spawns: " ++ nat_to_string (List.length (Spawns result)) ++ " spawn(s)";
      "Error: " ++ (if truthy (Error result)
                    then JSON_stringify_2 (Error result)
                    else "None") ] in
  String.concat nl lines.

(** ** The external client ([@permaweb/aoconnect])

    The six imported primitives are outside the repository.  Each is taken as an
    arbitrary function of its argument and of the events so far; it either returns
    or throws. *)

Record AoConnect : Type := mkAoConnect {
  connect : gmap string value -> list Event -> Result unit;
  createSigner : value -> list Event -> Result Signer;
  spawn : SpawnArgs -> list Event -> Result string;
  message : MessageArgs -> list Event -> Result string;
  result : ResultArgs -> list Event -> Result AOResult;
  dryrun : DryrunArgs -> list Event -> Result AOResult
}.

(** A call of a primitive: the event is recorded, the primitive answers. *)
Definition call {Arg A} (ev : Arg -> Event) (prim : Arg -> list Event -> Result A)
    (arg : Arg) : M World A :=
  fun w => (prim arg (trace w), emit (ev arg) w).

(** ** [src/services/AOService.ts] *)

(** The fields of an [AOService] object.  [config] is an [AOServiceConfig]: a
    JavaScript object with an index signature, read as a map from property names. *)
Record AOService : Type := mkAOService {
  signer : option Signer;
  initialized : bool;
  config : gmap string value
}.

(** [constructor (runtime, config = {})]. *)
Definition new_AOService (config : option (gmap string value)) : AOService :=
  {| signer := None; initialized := false; config := default ∅ config |}.

(** A method that assigns to [this] runs on the object together with the world. *)
Record Ctx : Type := mkCtx { this : AOService; world : World }.

Definition liftW {A} (m : M World A) : M Ctx A :=
  fun c => match m (world c) with
           | (r, w') => (r, {| this := this c; world := w' |})
           end.

Definition set_signer (s : option Signer) : M Ctx unit :=
  fun c => (Ok tt, {| this := {| signer := s;
                                 initialized := initialized (this c);
                                 config := config (this c) |};
                      world := world c |}).

Definition set_initialized (b : bool) : M Ctx unit :=
  fun c => (Ok tt, {| this := {| signer := signer (this c);
                                 initialized := b;
                                 config := config (this c) |};
                      world := world c |}).

(** [o.k] on a map-like object: the property or [undefined]. *)
Definition field (o : gmap string value) (k : string) : value :=
  default VUndefined (o !! k).

(** [o?.k] where [o] may be [undefined]. *)
Definition opt_member (o : option (gmap string value)) (k : string) : value :=
  match o with
  | Some o => field o k
  | None => VUndefined
  end.

(** [o.k] where [o] may be [undefined]: a TypeError then. *)
Definition member {S} (o : option (gmap string value)) (k : string) : M S value :=
  match o with
  | Some o => ret (field o k)
  | None => throw (TError "TypeError"
                     ("Cannot read properties of undefined (reading '" ++ k ++ "')"))
  end.

(** One of the five blocks of [initialize]:
    [if (this.config.K || config?.G) { connectArgs.C = this.config.K || config.G; }] *)
Definition assign_connect_arg (thisConfig : gmap string value)
    (config : option (gmap string value)) (K G C : string)
    (connectArgs : gmap string value) : M Ctx (gmap string value) :=
  if truthy (field thisConfig K) || truthy (opt_member config G) then
    let! v := (if truthy (field thisConfig K) then ret (field thisConfig K)
               else member config G) in
    ret (<[C := v]> connectArgs)
  else ret connectArgs.

Definition build_connectArgs (thisConfig : gmap string value)
    (config : option (gmap string value)) : M Ctx (gmap string value) :=
  let connectArgs : gmap string value := ∅ in
  let! connectArgs :=
    assign_connect_arg thisConfig config "mode" "AO_MODE" "MODE" connectArgs in
  let! connectArgs :=
    assign_connect_arg thisConfig config "gatewayUrl" "AO_GATEWAY_URL" "GATEWAY_URL"
      connectArgs in
  let! connectArgs :=
    assign_connect_arg thisConfig config "graphqlUrl" "AO_GRAPHQL_URL" "GRAPHQL_URL"
      connectArgs in
  let! connectArgs :=
    assign_connect_arg thisConfig config "muUrl" "AO_MU_URL" "MU_URL" connectArgs in
  let! connectArgs :=
    assign_connect_arg thisConfig config "cuUrl" "AO_CU_URL" "CU_URL" connectArgs in
  ret connectArgs.

Definition initialize (ao : AoConnect) : M Ctx unit :=
  try_catch
    (fun c =>
       let thisConfig := config (this c) in
       let config := aoConfig (world c) in
       (let! _ :=
          (if truthy (field thisConfig "wallet") then
             let! s := liftW (call ECreateSigner (createSigner ao)
                                (field thisConfig "wallet")) in
             let! _ := set_signer (Some s) in
             liftW (logger_info "AOService: Signer initialized")
           else ret tt) in
        let! connectArgs := build_connectArgs thisConfig config in
        let! _ :=
          (if (0 <? size connectArgs)%nat then
             liftW (call EConnect (connect ao) connectArgs)
           else ret tt) in
        let! _ := set_initialized true in
        liftW (logger_info "AOService initialized successfully")) c)
    (fun error =>
       let! _ := liftW (logger_error "AOService initialization failed:" error) in
       throw error).

Definition stop : M Ctx unit :=
  let! _ := set_initialized false in
  let! _ := set_signer None in
  liftW (logger_info "AOService stopped").

Definition ensureInitialized (this : AOService) : M World unit :=
  if negb (initialized this) then
    throw (new_Error "AOService not initialized. Call initialize() first.")
  else ret tt.

Definition spawnProcess (ao : AoConnect) (this : AOService)
    (module scheduler : string) (tags : option (list Tag)) (data : option string)
    : M World string :=
  let! _ := ensureInitialized this in
  try_catch
    (let! processId :=
       call ESpawn (spawn ao)
         {| spawn_module := module; spawn_scheduler := scheduler;
            spawn_signer := signer this; spawn_tags := tags; spawn_data := data |} in
     let! _ := logger_info ("AOService: Process spawned with ID " ++ processId) in
     ret processId)
    (fun error =>
       let! _ := logger_error "AOService: Failed to spawn process:" error in
       throw error).

Definition sendMessage (ao : AoConnect) (this : AOService)
    (process data : string) (tags : option (list Tag)) (anchor : option string)
    : M World string :=
  let! _ := ensureInitialized this in
  try_catch
    (let! messageId :=
       call EMessage (message ao)
         {| message_process := process; message_data := data; message_tags := tags;
            message_anchor := anchor; message_signer := signer this |} in
     let! _ := logger_info ("AOService: Message sent with ID " ++ messageId
                            ++ " to process " ++ process) in
     ret messageId)
    (fun error =>
       let! _ := logger_error ("AOService: Failed to send message to process "
                               ++ process ++ ":") error in
       throw error).

Definition readResult (ao : AoConnect) (this : AOService)
    (process messageId : string) : M World AOResult :=
  let! _ := ensureInitialized this in
  try_catch
    (let! resultData :=
       call EResult (result ao)
         {| result_process := process; result_message := messageId |} in
     let! _ := logger_info ("AOService: Read result for message " ++ messageId
                            ++ " from process " ++ process) in
     ret resultData)
    (fun error =>
       let! _ := logger_error ("AOService: Failed to read result for message "
                               ++ messageId ++ " from process " ++ process ++ ":")
                   error in
       throw error).

Definition dryRun (ao : AoConnect) (this : AOService)
    (process data : string) (tags : option (list Tag)) (anchor : option string)
    : M World AOResult :=
  let! _ := ensureInitialized this in
  try_catch
    (let! resultData :=
       call EDryrun (dryrun ao)
         {| dryrun_process := process; dryrun_data := data; dryrun_tags := tags;
            dryrun_anchor := anchor |} in
     let! _ := logger_info ("AOService: Dry run executed for process " ++ process) in
     ret resultData)
    (fun error =>
       let! _ := logger_error ("AOService: Failed to execute dry run for process "
                               ++ process ++ ":") error in
       throw error).

Definition getSigner (this : AOService) : option Signer := signer this.

Definition isInitialized (this : AOService) : bool := initialized this.

(** ** The zod schemas of the actions

    The fragment of zod the four schemas are written in: [z.string ()] with an
    optional [.min (n)], [z.array], [z.object] (unknown keys are stripped) and
    [.optional ()]. *)

Inductive zod : Type :=
| ZString (min : nat)
| ZArray (element : zod)
| ZObject (shape : list (string * zod))
| ZOptional (inner : zod).

Definition z_string : zod := ZString 0.

(** [k in o]. *)
Fixpoint has_prop (k : string) (props : list (string * value)) : bool :=
  match props with
  | [] => false
  | (k', _) :: rest => if String.eqb k k' then true else has_prop k rest
  end.

Definition is_undefined (v : value) : bool :=
  match v with VUndefined => true | _ => false end.

(** The parsed output of a schema on an input, or [None] when the input has an
    issue.  An object keeps a key of its shape when the parsed value is defined or
    the key is in the input. *)
Fixpoint zod_parse (schema : zod) (input : value) : option value :=
  match schema with
  | ZString min =>
      match input with
      | VStr s => if (min <=? String.length s)%nat then Some input else None
      | _ => None
      end
  | ZOptional inner =>
      match input with
      | VUndefined => Some VUndefined
      | _ => zod_parse inner input
      end
  | ZArray element =>
      match input with
      | VArr items =>
          option_map VArr
            ((fix each (items : list value) : option (list value) :=
                match items with
                | [] => Some []
                | x :: rest =>
                    match zod_parse element x, each rest with
                    | Some y, Some ys => Some (y :: ys)
                    | _, _ => None
                    end
                end) items)
      | _ => None
      end
  | ZObject shape =>
      match input with
      | VObj props =>
          option_map VObj
            ((fix keys (shape : list (string * zod)) : option (list (string * value)) :=
                match shape with
                | [] => Some []
                | (k, s) :: rest =>
                    match zod_parse s (get_prop k props), keys rest with
                    | Some out, Some outs =>
                        Some (if is_undefined out && negb (has_prop k props)
                              then outs else (k, out) :: outs)
                    | _, _ => None
                    end
                end) shape)
      | _ => None
      end
  end.

Definition tagsSchema : zod :=
  ZOptional (ZArray (ZObject [("name", z_string); ("value", z_string)])).

Definition spawnProcessSchema : zod :=
  ZObject [("module", ZString 1); ("scheduler", ZString 1);
           ("data", ZOptional z_string); ("tags", tagsSchema)].

Definition sendMessageSchema : zod :=
  ZObject [("process", ZString 1); ("data", ZString 1);
           ("tags", tagsSchema); ("anchor", ZOptional z_string)].

Definition readResultSchema : zod :=
  ZObject [("process", ZString 1); ("messageId", ZString 1)].

Definition dryRunSchema : zod :=
  ZObject [("process", ZString 1); ("data", ZString 1);
           ("tags", tagsSchema); ("anchor", ZOptional z_string)].

(** ** The pre-check [validate] of the actions *)

(** [runtime.getService ('ao')] returns the service, or nothing, or throws. *)
Record IAgentRuntime : Type := mkRuntime {
  getService : string -> Result (option AOService)
}.

(** [message.content.text]: a string as a rule, any value at run time. *)
Record Memory : Type := mkMemory { content_text : value }.

Section Actions.

(** The host built-in [JSON.parse] and the text of a [ZodError] are not part of
    the repository: any parser and any message text. *)
Variable JSON_parse : string -> Result value.
Variable ZodError_message : zod -> value -> string.

Definition parseAsync {S} (schema : zod) (input : value) : M S value :=
  match zod_parse schema input with
  | Some out => ret out
  | None => throw (TZodError (ZodError_message schema input))
  end.

(** [typeof text === 'string' ? JSON.parse (text) : text]. *)
Definition payload_of (message : Memory) : Result value :=
  match content_text message with
  | VStr text => JSON_parse text
  | other => Ok other
  end.

(** The body shared, word for word, by the [validate] of the four actions; they
    differ in the schema only. *)
Definition validate (schema : zod) (runtime : IAgentRuntime) (message : Memory)
    : M World bool :=
  try_catch
    (let! service := (fun w => (getService runtime "ao", w)) in
     match service with
     | None => ret false
     | Some service =>
         if negb (isInitialized service) then ret false
         else
           let! content :=
             try_catch
               (let! c := (fun w => (payload_of message, w)) in ret (Some c))
               (fun _ => ret None) in
           match content with
           | None => ret false
           | Some content =>
               let! _ := parseAsync schema content in
               ret true
           end
     end)
    (fun _ => ret false).

Definition spawnAOProcessAction_validate := validate spawnProcessSchema.
Definition sendAOMessageAction_validate := validate sendMessageSchema.
Definition readAOResultAction_validate := validate readResultSchema.
Definition dryRunAOAction_validate := validate dryRunSchema.

End Actions.

(** ** Definitions used to state the properties *)

(** [sub] occurs in [s]. *)
Definition occurs_in (sub s : string) : Prop :=
  exists pre post : string, s = pre ++ sub ++ post.

(** The failure [r] is an [AOError] of the taxonomy kind [k]. *)
Definition fails_with_kind {A} (k : AOErrorCode) (r : Result A) : Prop :=
  exists e : AOError.t, r = Throw (TAOError e) /\ AOError.code e = k.

(** The response of the generic fallback for a caught value whose string form is
    [text]. *)
Definition generic_response (text : string) : AOErrorResponse.t :=
  {| AOErrorResponse.code := PROTOCOL_ERROR;
     AOErrorResponse.message := "An unexpected error occurred";
     AOErrorResponse.details := originalError text;
     AOErrorResponse.suggestions :=
       Some ["Please try again"; "Contact support if the issue persists"] |}.

Definition response_code (r : Result AOErrorResponse.t) : option AOErrorCode :=
  match r with
  | Ok resp => Some (AOErrorResponse.code resp)
  | Throw _ => None
  end.

(** The world after [handleAOError] has logged the value it was given. *)
Definition logged (error : thrown) (w : World) : World :=
  emit (ELog LogError "AO plugin error:" (Some error)) w.

(** *** Sample inputs, after the mocks of the test suite *)

Definition sample_client : AoConnect :=
  {| connect := fun _ _ => Ok tt;
     createSigner := fun _ _ => Ok (SignerHandle 1);
     spawn := fun _ _ => Ok "process-123";
     message := fun _ _ => Ok "message-123";
     result := fun _ _ =>
       Ok {| Output := VObj [("status", VStr "success")];
             Messages := []; Spawns := []; Error := VNull |};
     dryrun := fun _ _ =>
       Ok {| Output := VObj [("balance", VNum 100)];
             Messages := []; Spawns := []; Error := VNull |} |}.

Definition empty_world : World := {| aoConfig := None; trace := [] |}.

Definition guard_message : string :=
  "AOService not initialized. Call initialize() first.".

(** The result of the mocked [result] primitive of the test suite, and the text
    the specification gives for it. *)
Definition sample_result : AOResult :=
  {| Output := VObj [("status", VStr "success")];
     Messages := []; Spawns := []; Error := VNull |}.

Definition sample_result_text : string :=
  "Output: {" ++ nl
  ++ "  " ++ dq ++ "status" ++ dq ++ ": " ++ dq ++ "success" ++ dq ++ nl
  ++ "}" ++ nl
  ++ "Messages: 0 message(s)" ++ nl
  ++ "Spawns: 0 spawn(s)" ++ nl
  ++ "Error: None".

(** *** The connection profile, in the words of the specification *)

(** A configuration value is present and non-empty. *)
Definition present_nonempty (o : option value) : bool :=
  match o with
  | Some v => truthy v
  | None => false
  end.

(** Prefer the instance value if present and non-empty, else fall back to the
    process-wide value, else leave unset. *)
Definition effective_field (instance processWide : option value) : option value :=
  if present_nonempty instance then instance
  else if present_nonempty processWide then processWide
  else None.

(** The fields that reach the external client: the property of the instance
    configuration, the key of the process-wide store, the key of the argument of
    [connect]. *)
Definition connection_fields : list (string * string * string) :=
  [ ("mode", "AO_MODE", "MODE");
    ("gatewayUrl", "AO_GATEWAY_URL", "GATEWAY_URL");
    ("graphqlUrl", "AO_GRAPHQL_URL", "GRAPHQL_URL");
    ("muUrl", "AO_MU_URL", "MU_URL");
    ("cuUrl", "AO_CU_URL", "CU_URL") ].

(** The keys the argument of [connect] can have. *)
Definition connect_keys : list string := List.map snd connection_fields.

Definition set_field (instance : gmap string value)
    (processWide : option (gmap string value)) (args : gmap string value)
    (f : string * string * string) : gmap string value :=
  match f with
  | (K, G, C) =>
      match effective_field (instance !! K) (processWide ≫= (fun o => o !! G)) with
      | Some v => <[C := v]> args
      | None => args
      end
  end.

Definition effective_profile (instance : gmap string value)
    (processWide : option (gmap string value)) : gmap string value :=
  foldl (set_field instance processWide) ∅ connection_fields.

(** The arguments of the calls of [connect] in a trace, in order. *)
Definition connect_calls (events : list Event) : list (gmap string value) :=
  omap (fun ev => match ev with EConnect args => Some args | _ => None end) events.

(** The service has a wallet and deriving a signer from it throws. *)
Definition signer_derivation_throws (ao : AoConnect) (svc : AOService) (w : World)
    : bool :=
  truthy (field (config svc) "wallet")
  && match createSigner ao (field (config svc) "wallet") (trace w) with
     | Throw _ => true
     | Ok _ => false
     end.


(** A client whose [createSigner] rejects every wallet. *)
Definition rejecting_client : AoConnect :=
  {| connect := connect sample_client;
     createSigner := fun _ _ => Throw (new_Error "invalid wallet");
     spawn := spawn sample_client;
     message := message sample_client;
     result := result sample_client;
     dryrun := dryrun sample_client |}.

Definition wallet_service : AOService :=
  new_AOService (Some {[ "wallet" := VObj [("key", VStr "test")] ]}).

(** An instance configuration and a process-wide store that both set an API key
    and a default timeout. *)
Definition configured_service : AOService :=
  new_AOService
    (Some {[ "mode" := VStr "mainnet";
             "apiKey" := VStr "instance-key";
             "defaultTimeout" := VNum 5000 ]}).

Definition configured_world : World :=
  {| aoConfig :=
       Some {[ "AO_API_KEY" := VStr "store-key";
               "AO_GATEWAY_URL" := VStr "https://arweave.net";
               "AO_GRAPHQL_URL" := VStr "https://arweave.net/graphql";
               "AO_MODE" := VStr "legacy";
               "AO_DEFAULT_TIMEOUT" := VNum 30000 ]};
     trace := [] |}.

Definition configured_connect_args : gmap string value :=
  {[ "MODE" := VStr "mainnet";
     "GATEWAY_URL" := VStr "https://arweave.net";
     "GRAPHQL_URL" := VStr "https://arweave.net/graphql" ]}.

(** *** The pre-checks *)

(** The payload is an object without the property [k]. *)
Definition lacks_property (k : string) (payload : value) : Prop :=
  match payload with
  | VObj props => has_prop k props = false
  | _ => False
  end.

(** The runtime has no [ao] service, or the service is not initialized. *)
Definition service_not_ready (runtime : IAgentRuntime) : Prop :=
  getService runtime "ao" = Ok None
  \/ exists svc : AOService,
       getService runtime "ao" = Ok (Some svc) /\ isInitialized svc = false.

(** A [JSON.parse] that knows the texts of a table and rejects any other. *)
Definition parse_by_table (table : list (string * value)) (text : string)
    : Result value :=
  match List.find (fun entry => String.eqb text (fst entry)) table with
  | Some entry => Ok (snd entry)
  | None => Throw (TError "SyntaxError" "Unexpected token")
  end.

(** The payloads of the send-message tests: one with [data] only, one valid. *)
Definition payload_without_process : value :=
  VObj [("data", VStr "test message")].

Definition valid_send_payload : value :=
  VObj [("process", VStr "process-123"); ("data", VStr "test message")].

Definition text_without_process : string :=
  "{" ++ dq ++ "data" ++ dq ++ ":" ++ dq ++ "test message" ++ dq ++ "}".

Definition sample_JSON_parse : string -> Result value :=
  parse_by_table [(text_without_process, payload_without_process)].

Definition sample_ZodError_message (schema : zod) (input : value) : string :=
  "Required".

Definition runtime_with (svc : option AOService) : IAgentRuntime :=
  {| getService := fun _ => Ok svc |}.

Definition initialized_service : AOService :=
  {| signer := None; initialized := true; config := ∅ |}.

(** ** The rest of [src/utils/format.ts] *)

(** [s.slice (start, end)]; [None] is an omitted [end]. *)
Definition String_slice (s : string) (start : Z) (end_ : option Z) : string :=
  let len := Z.of_nat (String.length s) in
  let clamp (i : Z) : Z :=
    if (i <? 0)%Z then Z.max (len + i) 0 else Z.min i len in
  let from := clamp start in
  let to := match end_ with Some e => clamp e | None => len end in
  String.substring (Z.to_nat from) (Z.to_nat (Z.max (to - from) 0)) s.

Definition formatTransactionHash (hash : string) : string :=
  if String.eqb hash "" || (String.length hash <? 10)%nat then hash
  else String_slice hash 0 (Some 6%Z) ++ "..." ++ String_slice hash (-4) None.

Definition formatProcessId (id : string) : string := formatTransactionHash id.

Definition formatMessageId (id : string) : string := formatTransactionHash id.

(** ** The providers ([src/providers/aoProviders.ts]) *)

Module ProviderResult.
Record t : Type := mk {
  text : string;
  values : value;
  data : value
}.
End ProviderResult.

(** [error instanceof Error ? error.message : String (error)]. *)
Definition message_or_String (error : thrown) : string :=
  match error with
  | TAOError a => AOError.message a
  | TError _ message | TZodError message => message
  | TValue v => js_String v
  end.

Definition aoServiceStatusProvider_get (runtime : IAgentRuntime)
    : M World ProviderResult.t :=
  try_catch
    (let! service := (fun w => (getService runtime "ao", w)) in
     match service with
     | None =>
         ret {| ProviderResult.text := "AO service is not available";
                ProviderResult.values :=
                  VObj [("available", VBool false); ("initialized", VBool false)];
                ProviderResult.data := VObj [("serviceAvailable", VBool false)] |}
     | Some service =>
         let isInitialized := isInitialized service in
         ret {| ProviderResult.text :=
                  "AO service is "
                  ++ (if isInitialized then "initialized" else "not initialized");
                ProviderResult.values :=
                  VObj [("available", VBool true);
                        ("initialized", VBool isInitialized)];
                ProviderResult.data :=
                  VObj [("serviceAvailable", VBool true);
                        ("serviceInitialized", VBool isInitialized)] |}
     end)
    (fun error =>
       ret {| ProviderResult.text := "Error checking AO service status";
              ProviderResult.values :=
                VObj [("available", VBool false); ("initialized", VBool false)];
              ProviderResult.data :=
                VObj [("serviceAvailable", VBool false);
                      ("error", VStr (message_or_String error))] |}).

Definition wallet_not_connected : ProviderResult.t :=
  {| ProviderResult.text := "Wallet is not connected";
     ProviderResult.values := VObj [("connected", VBool false)];
     ProviderResult.data := VObj [("walletConnected", VBool false)] |}.

Definition aoWalletInfoProvider_get (runtime : IAgentRuntime)
    : M World ProviderResult.t :=
  try_catch
    (let! service := (fun w => (getService runtime "ao", w)) in
     match service with
     | None =>
         ret {| ProviderResult.text := "AO service is not available";
                ProviderResult.values := VObj [("connected", VBool false)];
                ProviderResult.data := VObj [("walletConnected", VBool false)] |}
     | Some service =>
         let signer := getSigner service in
         let isInitialized := isInitialized service in
         if match signer with Some _ => false | None => true end
            || negb isInitialized then
           ret wallet_not_connected
         else
           ret {| ProviderResult.text :=
                    "Wallet is connected and ready for transactions";
                  ProviderResult.values :=
                    VObj [("connected", VBool true);
                          ("address", VStr "Not available in this context")];
                  ProviderResult.data :=
                    VObj [("walletConnected", VBool true);
                          ("address", VStr "Not available in this context")] |}
     end)
    (fun error =>
       ret {| ProviderResult.text := "Error checking wallet status";
              ProviderResult.values := VObj [("connected", VBool false)];
              ProviderResult.data :=
                VObj [("walletConnected", VBool false);
                      ("error", VStr (message_or_String error))] |}).

(** ** The handlers of the actions *)

(** A field of the [data] of an action result: a plain value, or the result
    object of the external client. *)
Inductive DataValue : Type :=
| DValue (v : value)
| DResult (r : AOResult).

Module ActionResult.
Record t : Type := mk {
  success : bool;
  text : string;
  error : option thrown;
  data : list (string * DataValue)
}.
End ActionResult.

(** The optional [callback] of a handler: a function of the host, which may do
    anything to the world and may throw. *)
Definition HandlerCallback : Type := value -> M World unit.

(** [o.k] on a value that is an object. *)
Definition prop (o : value) (k : string) : value :=
  match o with
  | VObj props => get_prop k props
  | _ => VUndefined
  end.

(** The typed views of the fields of a validated input. *)
Definition string_field (v : value) : string :=
  match v with VStr s => s | _ => EmptyString end.

Definition optional_string_field (v : value) : option string :=
  match v with VStr s => Some s | _ => None end.

Definition tag_of (v : value) : Tag :=
  {| tag_name := string_field (prop v "name");
     tag_value := string_field (prop v "value") |}.

Definition optional_tags_field (v : value) : option (list Tag) :=
  match v with VArr items => Some (List.map tag_of items) | _ => None end.

(** The objects a list of tags stands for. *)
Definition value_of_tag (t : Tag) : value :=
  VObj [("name", VStr (tag_name t)); ("value", VStr (tag_value t))].

Definition value_of_tags (tags : option (list Tag)) : value :=
  match tags with
  | Some l => VArr (List.map value_of_tag l)
  | None => VUndefined
  end.

(** [response.suggestions] as a value. *)
Definition value_of_suggestions (s : option (list string)) : value :=
  match s with
  | Some l => VArr (List.map VStr l)
  | None => VUndefined
  end.

Definition service_not_found : thrown :=
  TAOError (AOError.mk SERVICE_NOT_INITIALIZED "AOService not found" VUndefined
              (Some ["Ensure the AO plugin is properly initialized"])).

(** [if (callback) { await callback (content); }]. *)
Definition call_back (callback : option HandlerCallback) (content : value)
    : M World unit :=
  match callback with
  | Some cb => cb content
  | None => ret tt
  end.

(** The catch block of a handler; the four differ in the text before the
    message and in the action name. *)
Definition failure_result (failed actionName : string)
    (callback : option HandlerCallback) (error : thrown)
    : M World ActionResult.t :=
  let! response := handleAOError error in
  let! _ := call_back callback
              (VObj [("text", VStr (failed ++ AOErrorResponse.message response));
                     ("error", VBool true)]) in
  ret {| ActionResult.success := false;
         ActionResult.text := failed ++ AOErrorResponse.message response;
         ActionResult.error :=
           Some (if truthy (AOErrorResponse.details response)
                 then new_Error (js_String (AOErrorResponse.details response))
                 else new_Error (AOErrorResponse.message response));
         ActionResult.data :=
           [("actionName", DValue (VStr actionName));
            ("errorMessage", DValue (VStr (AOErrorResponse.message response)));
            ("suggestions",
             DValue (value_of_suggestions (AOErrorResponse.suggestions response)))] |}.

Section Handlers.

Variable ao : AoConnect.
Variable JSON_parse : string -> Result value.
Variable ZodError_message : zod -> value -> string.

(** The first statements of a handler: the service, the input, its validation. *)
Definition validated_input (schema : zod) (runtime : IAgentRuntime)
    (message : Memory) : M World (AOService * value) :=
  let! service := (fun w => (getService runtime "ao", w)) in
  match service with
  | None => throw service_not_found
  | Some service =>
      let! input := (fun w => (payload_of JSON_parse message, w)) in
      let! validatedInput := parseAsync ZodError_message schema input in
      ret (service, validatedInput)
  end.

Definition spawnAOProcessAction_handler (runtime : IAgentRuntime)
    (message : Memory) (callback : option HandlerCallback)
    : M World ActionResult.t :=
  try_catch
    (let! sv := validated_input spawnProcessSchema runtime message in
     let service := fst sv in
     let validatedInput := snd sv in
     let! processId :=
       spawnProcess ao service
         (string_field (prop validatedInput "module"))
         (string_field (prop validatedInput "scheduler"))
         (optional_tags_field (prop validatedInput "tags"))
         (optional_string_field (prop validatedInput "data")) in
     let! _ := logger_info ("Spawned AO process with ID: " ++ processId) in
     let! _ := call_back callback
                 (VObj [("text", VStr ("Spawning AO process with module "
                                       ++ js_String (prop validatedInput "module")
                                       ++ "..."));
                        ("action", VStr "SPAWN_AO_PROCESS")]) in
     ret {| ActionResult.success := true;
            ActionResult.text :=
              "Successfully spawned AO process with ID: " ++ processId;
            ActionResult.error := None;
            ActionResult.data :=
              [("actionName", DValue (VStr "SPAWN_AO_PROCESS"));
               ("processId", DValue (VStr processId));
               ("module", DValue (prop validatedInput "module"));
               ("scheduler", DValue (prop validatedInput "scheduler"))] |})
    (failure_result "Failed to spawn AO process: " "SPAWN_AO_PROCESS" callback).

Definition sendAOMessageAction_handler (runtime : IAgentRuntime)
    (message : Memory) (callback : option HandlerCallback)
    : M World ActionResult.t :=
  try_catch
    (let! sv := validated_input sendMessageSchema runtime message in
     let service := fst sv in
     let validatedInput := snd sv in
     let! messageId :=
       sendMessage ao service
         (string_field (prop validatedInput "process"))
         (string_field (prop validatedInput "data"))
         (optional_tags_field (prop validatedInput "tags"))
         (optional_string_field (prop validatedInput "anchor")) in
     let! _ := logger_info ("Sent message with ID: " ++ messageId
                            ++ " to process: "
                            ++ js_String (prop validatedInput "process")) in
     let! _ := call_back callback
                 (VObj [("text", VStr ("Sending message to AO process "
                                       ++ js_String (prop validatedInput "process")
                                       ++ "..."));
                        ("action", VStr "SEND_AO_MESSAGE")]) in
     ret {| ActionResult.success := true;
            ActionResult.text :=
              "Successfully sent message with ID: " ++ messageId
              ++ " to process: " ++ js_String (prop validatedInput "process");
            ActionResult.error := None;
            ActionResult.data :=
              [("actionName", DValue (VStr "SEND_AO_MESSAGE"));
               ("messageId", DValue (VStr messageId));
               ("processId", DValue (prop validatedInput "process"))] |})
    (failure_result "Failed to send message to AO process: " "SEND_AO_MESSAGE"
       callback).

Definition readAOResultAction_handler (runtime : IAgentRuntime)
    (message : Memory) (callback : option HandlerCallback)
    : M World ActionResult.t :=
  try_catch
    (let! sv := validated_input readResultSchema runtime message in
     let service := fst sv in
     let validatedInput := snd sv in
     let! result :=
       readResult ao service
         (string_field (prop validatedInput "process"))
         (string_field (prop validatedInput "messageId")) in
     let! _ := logger_info ("Read result for message: "
                            ++ js_String (prop validatedInput "messageId")
                            ++ " from process: "
                            ++ js_String (prop validatedInput "process")) in
     let resultText := formatAOResult result in
     let! _ := call_back callback
                 (VObj [("text", VStr ("Reading result for message "
                                       ++ js_String (prop validatedInput "messageId")
                                       ++ "..."));
                        ("action", VStr "READ_AO_RESULT")]) in
     ret {| ActionResult.success := true;
            ActionResult.text := resultText;
            ActionResult.error := None;
            ActionResult.data :=
              [("actionName", DValue (VStr "READ_AO_RESULT"));
               ("processId", DValue (prop validatedInput "process"));
               ("messageId", DValue (prop validatedInput "messageId"));
               ("result", DResult result)] |})
    (failure_result "Failed to read result from AO process: " "READ_AO_RESULT"
       callback).

Definition dryRunAOAction_handler (runtime : IAgentRuntime)
    (message : Memory) (callback : option HandlerCallback)
    : M World ActionResult.t :=
  try_catch
    (let! sv := validated_input dryRunSchema runtime message in
     let service := fst sv in
     let validatedInput := snd sv in
     let! result :=
       dryRun ao service
         (string_field (prop validatedInput "process"))
         (string_field (prop validatedInput "data"))
         (optional_tags_field (prop validatedInput "tags"))
         (optional_string_field (prop validatedInput "anchor")) in
     let! _ := logger_info ("Executed dry run on process: "
                            ++ js_String (prop validatedInput "process")) in
     let resultText :=
       "Dry run result for process " ++ js_String (prop validatedInput "process")
       ++ ":" ++ nl ++ formatAOResult result in
     let! _ := call_back callback
                 (VObj [("text", VStr ("Executing dry run on process "
                                       ++ js_String (prop validatedInput "process")
                                       ++ "..."));
                        ("action", VStr "DRY_RUN_AO")]) in
     ret {| ActionResult.success := true;
            ActionResult.text := resultText;
            ActionResult.error := None;
            ActionResult.data :=
              [("actionName", DValue (VStr "DRY_RUN_AO"));
               ("processId", DValue (prop validatedInput "process"));
               ("result", DResult result)] |})
    (failure_result "Failed to execute dry run on AO process: " "DRY_RUN_AO"
       callback).

End Handlers.

(** ** Definitions used to state the further properties *)

(** The calls of primitives of the external client in a trace: every event but
    the log entries. *)
Definition is_client_call (ev : Event) : bool :=
  match ev with
  | ELog _ _ _ => false
  | _ => true
  end.

Definition client_calls (events : list Event) : list Event :=
  List.filter is_client_call events.

(** The service the runtime hands out, if it hands out one. *)
Definition service_of (runtime : IAgentRuntime) : option AOService :=
  match getService runtime "ao" with
  | Ok (Some service) => Some service
  | _ => None
  end.

(** The codes [handleAOError] can give to a failure that is not an [AOError]. *)
Definition classified_codes : list AOErrorCode :=
  [INSUFFICIENT_BALANCE; NETWORK_ERROR; TRANSACTION_FAILED; PROTOCOL_ERROR].

(** The messages that go with them. *)
Definition classified_messages : list string :=
  ["Insufficient balance to complete transaction";
   "Network connection error";
   "Transaction reverted on chain";
   "An unexpected error occurred"].

(** The result of a handler that failed: the text, the [error] it carries and the
    suggestions. *)
Definition failure_envelope (failed actionName message : string) (cause : thrown)
    (suggestions : option (list string)) : ActionResult.t :=
  {| ActionResult.success := false;
     ActionResult.text := failed ++ message;
     ActionResult.error := Some cause;
     ActionResult.data :=
       [("actionName", DValue (VStr actionName));
        ("errorMessage", DValue (VStr message));
        ("suggestions", DValue (value_of_suggestions suggestions))] |}.


(** The payloads of the examples of the actions. *)
Definition valid_spawn_payload : value :=
  VObj [("module", VStr "MODULE_ID_123"); ("scheduler", VStr "SCHEDULER_ID_456")].

Definition valid_read_payload : value :=
  VObj [("process", VStr "PROCESS_ID_789"); ("messageId", VStr "MESSAGE_ID_012")].

Definition valid_dry_run_payload : value :=
  VObj [("process", VStr "PROCESS_ID_789"); ("data", VStr "balance");
        ("tags", VArr [VObj [("name", VStr "Action"); ("value", VStr "Balance")]])].

(** *** What the schemas of the actions accept, in plain terms *)

Definition nonempty_string (v : value) : Prop :=
  exists s : string, v = VStr s /\ s <> EmptyString.

Definition optional_string (v : value) : Prop :=
  v = VUndefined \/ exists s : string, v = VStr s.

(** An object with a string [name] and a string [value]. *)
Definition valid_tag (v : value) : Prop :=
  exists (props : list (string * value)) (n x : string),
    v = VObj props /\ get_prop "name" props = VStr n
    /\ get_prop "value" props = VStr x.

Definition optional_tags (v : value) : Prop :=
  v = VUndefined \/ exists items : list value, v = VArr items /\ Forall valid_tag items.

Definition valid_spawn_input (input : value) : Prop :=
  exists props : list (string * value),
    input = VObj props
    /\ nonempty_string (get_prop "module" props)
    /\ nonempty_string (get_prop "scheduler" props)
    /\ optional_string (get_prop "data" props)
    /\ optional_tags (get_prop "tags" props).

(** The send-message and the dry-run payloads have the same form. *)
Definition valid_message_input (input : value) : Prop :=
  exists props : list (string * value),
    input = VObj props
    /\ nonempty_string (get_prop "process" props)
    /\ nonempty_string (get_prop "data" props)
    /\ optional_tags (get_prop "tags" props)
    /\ optional_string (get_prop "anchor" props).

Definition valid_read_input (input : value) : Prop :=
  exists props : list (string * value),
    input = VObj props
    /\ nonempty_string (get_prop "process" props)
    /\ nonempty_string (get_prop "messageId" props).

Definition tagSchema : zod := ZObject [("name", z_string); ("value", z_string)].

(** *** Lines of a text *)

(** The number of newline characters of a text; a text has one line more. *)
Fixpoint count_nl (s : string) : nat :=
  match s with
  | EmptyString => 0
  | String c rest =>
      (if Ascii.eqb c "010"%char then 1 else 0) + count_nl rest
  end.

(** The values [JSON.stringify] with an indent prints on one line: everything
    but a non-empty array and an object with a property that is printed. *)
Definition prints_on_one_line (v : value) : bool :=
  match v with
  | VArr (_ :: _) => false
  | VObj props => forallb (fun kv => is_undefined (snd kv)) props
  | _ => true
  end.
(** * Properties *)

(** ** Substrings *)

Lemma append_cons (c : ascii) (a b : string) :
  String c a ++ b = String c (a ++ b).
Proof. reflexivity. Qed.

Lemma append_empty_l (b : string) : EmptyString ++ b = b.
Proof. reflexivity. Qed.

Lemma prefix_spec (a s : string) :
  String.prefix a s = true <-> exists post : string, s = a ++ post.
Proof.
  revert s. induction a as [|c a IH]; intros [|d s]; cbn [String.prefix].
  - split; [exists EmptyString|]; reflexivity.
  - split; [intros _; exists (String d s)|]; reflexivity.
  - split; [discriminate | intros [post H]; discriminate].
  - destruct (Ascii.ascii_dec c d) as [Heq|Hne].
    + rewrite IH. split; intros [post H]; exists post.
      * now rewrite append_cons, <- H, Heq.
      * rewrite append_cons in H. now inversion H.
    + split; [discriminate |].
      intros [post H]. rewrite append_cons in H. congruence.
Qed.

Lemma includes_here (sub s : string) :
  String.prefix sub s = true -> occurs_in sub s.
Proof.
  intros Hp. apply prefix_spec in Hp as [post Hp].
  exists EmptyString, post. exact Hp.
Qed.

Lemma includes_spec (sub s : string) :
  includes sub s = true <-> occurs_in sub s.
Proof.
  induction s as [|c s IH]; cbn [includes].
  - destruct (String.prefix sub EmptyString) eqn:Hp.
    + split; [intros _; now apply includes_here | reflexivity].
    + split; [discriminate |]. intros (pre & post & H).
      destruct pre as [|d pre]; [| discriminate].
      rewrite append_empty_l in H.
      assert (String.prefix sub EmptyString = true) as Hq
        by (apply prefix_spec; exists post; exact H).
      congruence.
  - destruct (String.prefix sub (String c s)) eqn:Hp.
    + split; [intros _; now apply includes_here | reflexivity].
    + rewrite IH. split.
      * intros (pre & post & H). exists (String c pre), post.
        now rewrite append_cons, <- H.
      * intros (pre & post & H). destruct pre as [|d pre].
        -- rewrite append_empty_l in H.
           assert (String.prefix sub (String c s) = true) as Hq
             by (apply prefix_spec; exists post; exact H).
           congruence.
        -- rewrite append_cons in H. inversion H; subst.
           exists pre, post. reflexivity.
Qed.

Lemma includes_false_spec (sub s : string) :
  includes sub s = false <-> ~ occurs_in sub s.
Proof.
  rewrite <- includes_spec. destruct (includes sub s); split; congruence.
Qed.

Lemma append_empty_r (s : string) : s ++ EmptyString = s.
Proof.
  induction s as [|c s IH]; [reflexivity |].
  now rewrite append_cons, IH.
Qed.

Lemma append_assoc (a b c : string) : (a ++ b) ++ c = a ++ b ++ c.
Proof.
  induction a as [|x a IH]; [reflexivity |].
  now rewrite !append_cons, IH.
Qed.

(** ** Error normalisation *)

Lemma Error_toString_ends_with_message (name message : string) :
  exists pre : string, Error_toString name message = pre ++ message.
Proof.
  unfold Error_toString.
  destruct (String.eqb name "") eqn:Hn.
  - exists EmptyString. reflexivity.
  - destruct (String.eqb message "") eqn:Hm.
    + apply String.eqb_eq in Hm. subst message.
      exists name. now rewrite append_empty_r.
    + exists (name ++ ": "). now rewrite append_assoc.
Qed.

(** C4.  For every [Error] instance that is not an [AOError], one that prints in
    the standard way, with any name and message, and the [ZodError] of a failed
    validation alike, [handleAOError] returns a response chosen by the first
    substring of the message that matches, in the order: insufficient funds gives
    INSUFFICIENT_BALANCE; else network or connection gives NETWORK_ERROR; else
    reverted gives TRANSACTION_FAILED; else the generic PROTOCOL_ERROR response
    with the generic suggestions.  The details of every such response carry the
    message of the failure: the message itself in the three matched classes, and
    the string form of the error in the fallback, which is the name, a colon and
    the message for a standard error and the message alone for a [ZodError]. *)
Theorem handleAOError_classifies_by_first_match
    (name message : string) (w : World) :
  let classified (error : thrown) (text : string) :=
    exists r : AOErrorResponse.t,
      handleAOError error w = (Ok r, logged error w)
      /\ (occurs_in "insufficient funds" message ->
          AOErrorResponse.code r = INSUFFICIENT_BALANCE
          /\ AOErrorResponse.details r = originalError message)
      /\ (~ occurs_in "insufficient funds" message ->
          occurs_in "network" message \/ occurs_in "connection" message ->
          AOErrorResponse.code r = NETWORK_ERROR
          /\ AOErrorResponse.details r = originalError message)
      /\ (~ occurs_in "insufficient funds" message ->
          ~ occurs_in "network" message -> ~ occurs_in "connection" message ->
          occurs_in "reverted" message ->
          AOErrorResponse.code r = TRANSACTION_FAILED
          /\ AOErrorResponse.details r = originalError message)
      /\ (~ occurs_in "insufficient funds" message ->
          ~ occurs_in "network" message -> ~ occurs_in "connection" message ->
          ~ occurs_in "reverted" message ->
          r = generic_response text)
      /\ (exists pre : string,
            AOErrorResponse.details r = originalError (pre ++ message)) in
  classified (TError name message) (Error_toString name message)
  /\ classified (TZodError message) message.
Proof.
  cbv zeta.
  unfold handleAOError, bind, logger_error, ret, logged.
  destruct (includes "insufficient funds" message) eqn:Hf;
    [| destruct (includes "network" message) eqn:Hn;
       [| destruct (includes "connection" message) eqn:Hc;
          [| destruct (includes "reverted" message) eqn:Hr]]];
    cbn [orb];
    repeat match goal with
      | H : includes _ _ = true |- _ => apply includes_spec in H
      | H : includes _ _ = false |- _ => apply includes_false_spec in H
      end;
    (split; eexists; (split; [reflexivity |]); cbn;
     repeat split; intros; try tauto; try contradiction;
     try (exists EmptyString; reflexivity)).
  destruct (Error_toString_ends_with_message name message) as [pre Hpre].
  exists pre. now rewrite <- Hpre.
Qed.



(** The order of the tests decides when several substrings occur. *)
Example first_match_wins :
  response_code
    (fst (handleAOError (new_Error "network: insufficient funds, reverted")
            empty_world)) = Some INSUFFICIENT_BALANCE
  /\ response_code
       (fst (handleAOError (new_Error "connection reverted") empty_world))
     = Some NETWORK_ERROR
  /\ response_code
       (fst (handleAOError (new_Error "execution reverted") empty_world))
     = Some TRANSACTION_FAILED
  /\ fst (handleAOError (new_Error "boom") empty_world)
     = Ok (generic_response "Error: boom").
Proof. repeat split; reflexivity. Qed.

(** A failed validation that matches no rule keeps the text of its issues, and
    no name before it, in the details. *)
Example ZodError_prints_its_message :
  fst (handleAOError (TZodError "Process ID is required") empty_world)
    = Ok (generic_response "Process ID is required")
  /\ fst (handleAOError (TError "SyntaxError" "Unexpected token") empty_world)
     = Ok (generic_response "SyntaxError: Unexpected token").
Proof. split; reflexivity. Qed.

(** The same text is classified when an [Error] carries it, and is not when it is
    thrown as a bare string. *)
Example thrown_string_is_not_classified :
  response_code (fst (handleAOError (TValue (VStr "network down")) empty_world))
    = Some PROTOCOL_ERROR
  /\ response_code (fst (handleAOError (new_Error "network down") empty_world))
    = Some NETWORK_ERROR.
Proof. split; reflexivity. Qed.

(** C2 (as amended).  For every [AOError], whatever its code, message, details
    and suggestions, [handleAOError] returns a response with the same four
    fields; the text of the message is not inspected. *)
Theorem handleAOError_passes_AOError_through (e : AOError.t) (w : World) :
  exists r : AOErrorResponse.t,
    handleAOError (TAOError e) w = (Ok r, logged (TAOError e) w)
    /\ AOErrorResponse.code r = AOError.code e
    /\ AOErrorResponse.message r = AOError.message e
    /\ AOErrorResponse.details r = AOError.details e
    /\ AOErrorResponse.suggestions r = AOError.suggestions e.
Proof.
  exists (AOError.toResponse e). repeat split; reflexivity.
Qed.

(** An [AOError] whose message would match a substring rule keeps its own code,
    as the one the action handlers raise when the service is not found does. *)
Example AOError_message_is_not_classified :
  fst (handleAOError
         (TAOError (AOError.mk SERVICE_NOT_INITIALIZED "AOService not found"
                      VUndefined
                      (Some ["Ensure the AO plugin is properly initialized"])))
         empty_world)
  = Ok {| AOErrorResponse.code := SERVICE_NOT_INITIALIZED;
          AOErrorResponse.message := "AOService not found";
          AOErrorResponse.details := VUndefined;
          AOErrorResponse.suggestions :=
            Some ["Ensure the AO plugin is properly initialized"] |}
  /\ response_code
       (fst (handleAOError
               (TAOError (AOError.mk UNAUTHORIZED "network connection reverted"
                            VUndefined None))
               empty_world))
     = Some UNAUTHORIZED.
Proof. split; reflexivity. Qed.

(** C2, the claim as stated, fails on the failure raised by the guard of the
    service: that value is a plain [Error], not an [AOError], and [handleAOError]
    does not return it unchanged but answers with the generic PROTOCOL_ERROR
    response, under another message. *)
Lemma guard_failure_is_not_passed_through :
  fst (ensureInitialized (new_AOService None) empty_world)
    = Throw (new_Error guard_message)
  /\ instanceof_AOError (new_Error guard_message) = false
  /\ fst (handleAOError (new_Error guard_message) empty_world)
     = Ok (generic_response ("Error: " ++ guard_message))
  /\ AOErrorResponse.code (generic_response ("Error: " ++ guard_message))
     <> SERVICE_NOT_INITIALIZED
  /\ AOErrorResponse.message (generic_response ("Error: " ++ guard_message))
     <> guard_message.
Proof. repeat split; try reflexivity; discriminate. Qed.

(** ** The lifecycle of the service *)

(** C7.  From any state of the service and of the world, [stop] returns normally;
    afterwards [isInitialized] is false and [getSigner] is undefined, and a second
    [stop] returns normally too and leaves the same service state. *)
Theorem stop_always_clears_the_service (svc : AOService) (w : World) :
  exists c1 c2 : Ctx,
    stop {| this := svc; world := w |} = (Ok tt, c1)
    /\ isInitialized (this c1) = false
    /\ getSigner (this c1) = None
    /\ config (this c1) = config svc
    /\ stop c1 = (Ok tt, c2)
    /\ this c2 = this c1.
Proof.
  eexists _, _. repeat split; reflexivity.
Qed.

(** C1 (as amended).  Each of the four operations, called on a service whose
    [initialized] flag is false, throws a plain [Error] with the message of the
    guard and leaves the world as it was: no primitive of the external client is
    called and nothing is logged.  The value thrown is not an [AOError], and
    [handleAOError] answers it with the generic PROTOCOL_ERROR response. *)
Theorem uninitialized_operations_throw_before_any_call
    (ao : AoConnect) (svc : AOService) (w : World)
    (module scheduler process data messageId : string)
    (tags : option (list Tag)) (anchor : option string) (spawnData : option string) :
  isInitialized svc = false ->
  spawnProcess ao svc module scheduler tags spawnData w
    = (Throw (new_Error guard_message), w)
  /\ sendMessage ao svc process data tags anchor w
    = (Throw (new_Error guard_message), w)
  /\ readResult ao svc process messageId w
    = (Throw (new_Error guard_message), w)
  /\ dryRun ao svc process data tags anchor w
    = (Throw (new_Error guard_message), w)
  /\ instanceof_AOError (new_Error guard_message) = false
  /\ handleAOError (new_Error guard_message) w
    = (Ok (generic_response ("Error: " ++ guard_message)),
       logged (new_Error guard_message) w).
Proof.
  unfold isInitialized. intros Hinit.
  unfold spawnProcess, sendMessage, readResult, dryRun, bind, ensureInitialized.
  rewrite Hinit. repeat split; reflexivity.
Qed.

Lemma uninitialized_operations_witness :
  isInitialized (new_AOService None) = false
  /\ spawnProcess sample_client (new_AOService None)
       "module-123" "scheduler-123" None None empty_world
     = (Throw (new_Error guard_message), empty_world)
  /\ sendMessage sample_client (new_AOService None)
       "process-123" "test data" None None empty_world
     = (Throw (new_Error guard_message), empty_world).
Proof.
  split; [reflexivity |].
  pose proof (uninitialized_operations_throw_before_any_call
                sample_client (new_AOService None) empty_world
                "module-123" "scheduler-123" "process-123" "test data"
                "message-123" None None None eq_refl) as (H1 & H2 & _).
  split; assumption.
Defined.

(** C1, the claim as stated, fails: the failure of an operation called before
    [initialize] is not an [AOError] of kind SERVICE_NOT_INITIALIZED, and the
    caller-facing normalisation reports it as PROTOCOL_ERROR. *)
Lemma uninitialized_failure_is_not_ServiceNotInitialized :
  ~ fails_with_kind SERVICE_NOT_INITIALIZED
      (fst (spawnProcess sample_client (new_AOService None)
              "module-123" "scheduler-123" None None empty_world))
  /\ ~ fails_with_kind SERVICE_NOT_INITIALIZED
      (fst (sendMessage sample_client (new_AOService None)
              "process-123" "test data" None None empty_world))
  /\ ~ fails_with_kind SERVICE_NOT_INITIALIZED
      (fst (readResult sample_client (new_AOService None)
              "process-123" "message-123" empty_world))
  /\ ~ fails_with_kind SERVICE_NOT_INITIALIZED
      (fst (dryRun sample_client (new_AOService None)
              "process-123" "balance" None None empty_world))
  /\ (forall e, fst (spawnProcess sample_client (new_AOService None)
                       "module-123" "scheduler-123" None None empty_world)
                = Throw e ->
                response_code (fst (handleAOError e empty_world))
                = Some PROTOCOL_ERROR).
Proof.
  repeat split; try (intros (e & H & _); discriminate H).
  intros e H. cbn in H. inversion H. reflexivity.
Qed.

(** ** The result formatter *)

(** C6.  [formatAOResult] is a function of the result alone: the four texts
    Output, Messages, Spawns and Error, in this order, joined by newlines, where
    the Error text is the literal None when the error is absent (falsy).  On the
    sample result it is exactly the text the specification gives. *)
Theorem formatAOResult_is_four_joined_lines (r : AOResult) :
  formatAOResult r
  = "Output: " ++ JSON_stringify_2 (Output r) ++ nl
    ++ "Messages: " ++ nat_to_string (List.length (Messages r)) ++ " message(s)" ++ nl
    ++ "Spawns: " ++ nat_to_string (List.length (Spawns r)) ++ " spawn(s)" ++ nl
    ++ "Error: " ++ (if truthy (Error r) then JSON_stringify_2 (Error r) else "None")
  /\ formatAOResult sample_result = sample_result_text.
Proof.
  split; [| vm_compute; reflexivity].
  unfold formatAOResult. cbn [String.concat].
  now rewrite !append_assoc.
Qed.

(** ** The connection profile *)

Lemma assign_connect_arg_ok (inst : gmap string value)
    (glob : option (gmap string value)) (K G C : string)
    (args : gmap string value) (c : Ctx) :
  assign_connect_arg inst glob K G C args c
  = (Ok (set_field inst glob args (K, G, C)), c).
Proof.
  unfold assign_connect_arg, set_field, effective_field, present_nonempty,
    field, opt_member, member, bind, ret.
  destruct (inst !! K) as [v|]; cbn.
  - destruct (truthy v) eqn:Hv; cbn; [reflexivity |].
    destruct glob as [g|]; cbn; [| reflexivity].
    unfold field. destruct (g !! G) as [u|]; cbn; [| reflexivity].
    destruct (truthy u); reflexivity.
  - destruct glob as [g|]; cbn; [| reflexivity].
    unfold field. destruct (g !! G) as [u|]; cbn; [| reflexivity].
    destruct (truthy u); reflexivity.
Qed.

(** The five blocks of [initialize] never throw, and compute the profile. *)
Lemma build_connectArgs_ok (inst : gmap string value)
    (glob : option (gmap string value)) (c : Ctx) :
  build_connectArgs inst glob c = (Ok (effective_profile inst glob), c).
Proof.
  unfold build_connectArgs, bind.
  rewrite !assign_connect_arg_ok. reflexivity.
Qed.

Lemma effective_profile_lookup (inst : gmap string value)
    (glob : option (gmap string value)) :
  Forall (fun f => match f with
                   | (K, G, C) =>
                       effective_profile inst glob !! C
                       = effective_field (inst !! K) (glob ≫= (fun o => o !! G))
                   end) connection_fields.
Proof.
  unfold effective_profile, connection_fields. cbn [foldl set_field].
  repeat constructor;
    repeat match goal with
      | |- context [match ?o with Some _ => _ | None => _ end] =>
          destruct o eqn:?
      end;
    simplify_map_eq; done.
Qed.

Lemma effective_profile_other_keys (inst : gmap string value)
    (glob : option (gmap string value)) (k : string) :
  k ∉ connect_keys -> effective_profile inst glob !! k = None.
Proof.
  unfold connect_keys, connection_fields. cbn [List.map snd].
  intros Hk. rewrite !not_elem_of_cons in Hk.
  destruct Hk as (H1 & H2 & H3 & H4 & H5 & _).
  unfold effective_profile, connection_fields. cbn [foldl set_field].
  repeat match goal with
    | |- context [match ?o with Some _ => _ | None => _ end] =>
        destruct o eqn:?
    end;
    simplify_map_eq; done.
Qed.

Ltac step_initialize :=
  cbn -[effective_profile emit size field truthy Nat.ltb];
  repeat (rewrite build_connectArgs_ok;
          cbn -[effective_profile emit size field truthy Nat.ltb]).

Ltac run_initialize :=
  unfold initialize, try_catch, bind, liftW, call, set_signer, set_initialized,
    logger_info, logger_error, throw, ret;
  step_initialize.

(** ** Initialization *)



Lemma connect_calls_emit (ev : Event) (w : World) :
  connect_calls (trace (emit ev w))
  = (connect_calls (trace w)
     ++ match ev with EConnect args => [args] | _ => [] end)%list.
Proof.
  unfold connect_calls, emit. cbn [trace]. rewrite omap_app.
  destruct ev; reflexivity.
Qed.

Lemma empty_object_has_no_keys (m : gmap string value) :
  bool_decide (m = ∅) = negb (0 <? size m)%nat.
Proof.
  destruct (size m) as [|n] eqn:Hn; cbn.
  - apply bool_decide_eq_true_2. now apply map_size_empty_iff.
  - apply bool_decide_eq_false_2. intros ->. now rewrite map_size_empty in Hn.
Qed.

Lemma present_nonempty_string (s : string) :
  present_nonempty (Some (VStr s)) = true <-> s <> EmptyString.
Proof.
  cbn. destruct (String.eqb_spec s EmptyString) as [->|Hne]; cbn; split; congruence.
Qed.

(** C3 (as amended).  For each of the five fields mode, gateway URL, GraphQL URL,
    message-unit URL and compute-unit URL, on its own: the argument of [connect]
    holds the instance value when it is present and non-empty, else the
    process-wide value when that is present and non-empty, else no entry for the
    field.  The argument has no other key.  [initialize] calls [connect] once,
    with this argument, unless the argument is empty or deriving the signer has
    thrown; then it does not call [connect] at all. *)
Theorem connect_receives_the_five_resolved_fields
    (ao : AoConnect) (svc : AOService) (w : World) :
  let profile := effective_profile (config svc) (aoConfig w) in
  Forall (fun f => match f with
                   | (K, G, C) =>
                       profile !! C
                       = effective_field (config svc !! K)
                           (aoConfig w ≫= (fun o => o !! G))
                   end) connection_fields
  /\ (forall k : string, k ∉ connect_keys -> profile !! k = None)
  /\ connect_calls (trace (world (snd (initialize ao {| this := svc; world := w |}))))
     = (connect_calls (trace w)
        ++ (if signer_derivation_throws ao svc w || bool_decide (profile = ∅)
            then [] else [profile]))%list.
Proof.
  intros profile. split; [apply effective_profile_lookup |].
  split; [intros k; apply effective_profile_other_keys |].
  unfold signer_derivation_throws. subst profile.
  rewrite empty_object_has_no_keys.
  run_initialize.
  destruct (truthy (field (config svc) "wallet")) eqn:Hw; step_initialize.
  - destruct (createSigner ao (field (config svc) "wallet") (trace w))
      as [s|e1] eqn:Hs; step_initialize.
    + destruct (0 <? size (effective_profile (config svc) (aoConfig w)))%nat;
        step_initialize.
      * match goal with
        | |- context [connect ao ?a ?t] => destruct (connect ao a t) as [[]|e2]
        end; step_initialize; rewrite !connect_calls_emit;
          now rewrite ?app_nil_r.
      * rewrite !connect_calls_emit. now rewrite !app_nil_r.
    + rewrite !connect_calls_emit. now rewrite !app_nil_r.
  - destruct (0 <? size (effective_profile (config svc) (aoConfig w)))%nat;
      step_initialize.
    + match goal with
      | |- context [connect ao ?a ?t] => destruct (connect ao a t) as [[]|e2]
      end; step_initialize; rewrite !connect_calls_emit;
        now rewrite ?app_nil_r.
    + rewrite !connect_calls_emit. now rewrite !app_nil_r.
Qed.

(** C3, the claim as stated, fails for the API key and the default timeout: an
    instance that sets both, over a store that sets both too, initializes
    normally, and the one call of [connect] receives the mode, the gateway URL and
    the GraphQL URL only; no key of its argument holds the API key or the
    timeout, of the instance or of the store. *)
Lemma api_key_and_timeout_never_reach_connect :
  present_nonempty (config configured_service !! "apiKey") = true
  /\ present_nonempty (config configured_service !! "defaultTimeout") = true
  /\ fst (initialize sample_client
            {| this := configured_service; world := configured_world |}) = Ok tt
  /\ connect_calls
       (trace (world (snd (initialize sample_client
                             {| this := configured_service;
                                world := configured_world |}))))
     = [configured_connect_args]
  /\ (forall k : string,
        configured_connect_args !! k <> Some (VStr "instance-key")
        /\ configured_connect_args !! k <> Some (VNum 5000)
        /\ configured_connect_args !! k <> Some (VStr "store-key")
        /\ configured_connect_args !! k <> Some (VNum 30000)).
Proof.
  split; [reflexivity |]. split; [reflexivity |].
  split; [vm_compute; reflexivity |]. split; [vm_compute; reflexivity |].
  intros k. unfold configured_connect_args.
  repeat (rewrite lookup_insert; case_decide; [repeat split; discriminate |]).
  rewrite lookup_singleton. case_decide; repeat split; discriminate.
Qed.


(** ** The pre-checks of the actions *)

Lemma get_prop_absent (k : string) (props : list (string * value)) :
  has_prop k props = false -> get_prop k props = VUndefined.
Proof.
  induction props as [|[k' v] props IH]; cbn; [reflexivity |].
  destruct (String.eqb k k'); [discriminate | exact IH].
Qed.

(** A payload without [process] has an issue under the send-message schema. *)
Lemma sendMessageSchema_requires_process (payload : value) :
  lacks_property "process" payload -> zod_parse sendMessageSchema payload = None.
Proof.
  destruct payload as [| | | | | |props]; cbn [lacks_property]; try contradiction.
  intros Hk. unfold sendMessageSchema. cbn [zod_parse].
  rewrite (get_prop_absent _ _ Hk). reflexivity.
Qed.

Section PreChecks.

Variable JSON_parse : string -> Result value.
Variable ZodError_message : zod -> value -> string.

(** The pre-check answers and touches nothing, whatever the runtime, the message
    and the schema. *)
Lemma validate_is_silent (schema : zod) (runtime : IAgentRuntime)
    (message : Memory) (w : World) :
  exists b : bool,
    validate JSON_parse ZodError_message schema runtime message w = (Ok b, w).
Proof.
  unfold validate, try_catch, bind, ret, parseAsync, throw.
  destruct (getService runtime "ao") as [[svc|]|e]; cbn; eauto.
  destruct (isInitialized svc); cbn; eauto.
  destruct (payload_of JSON_parse message) as [payload|e]; cbn; eauto.
  destruct (zod_parse schema payload); cbn; eauto.
Qed.

Lemma validate_rejects_an_issue (schema : zod) (runtime : IAgentRuntime)
    (message : Memory) (w : World) (payload : value) :
  payload_of JSON_parse message = Ok payload ->
  zod_parse schema payload = None ->
  validate JSON_parse ZodError_message schema runtime message w = (Ok false, w).
Proof.
  intros Hp Hz.
  unfold validate, try_catch, bind, ret, parseAsync, throw.
  destruct (getService runtime "ao") as [[svc|]|e]; cbn; try reflexivity.
  destruct (isInitialized svc); cbn; [| reflexivity].
  rewrite Hp; cbn. rewrite Hz. reflexivity.
Qed.

Lemma validate_needs_a_ready_service (schema : zod) (runtime : IAgentRuntime)
    (message : Memory) (w : World) :
  service_not_ready runtime ->
  validate JSON_parse ZodError_message schema runtime message w = (Ok false, w).
Proof.
  unfold validate, try_catch, bind, ret.
  intros [Hnone | (svc & Hsome & Hflag)].
  - rewrite Hnone. reflexivity.
  - rewrite Hsome. cbn. rewrite Hflag. reflexivity.
Qed.

(** C8.  When the payload of a message lacks the [process] property, or has any
    other issue under the send-message schema, the pre-check of the send-message
    action returns false and leaves the world as it was: no operation of the
    service is invoked, no primitive of the client is called. *)
Theorem send_message_validate_rejects_bad_payload
    (runtime : IAgentRuntime) (message : Memory) (w : World) (payload : value) :
  payload_of JSON_parse message = Ok payload ->
  lacks_property "process" payload \/ zod_parse sendMessageSchema payload = None ->
  sendAOMessageAction_validate JSON_parse ZodError_message runtime message w
  = (Ok false, w).
Proof.
  intros Hp Hbad. apply validate_rejects_an_issue with payload; [exact Hp |].
  destruct Hbad as [Hk | Hz]; [now apply sendMessageSchema_requires_process | exact Hz].
Qed.

(** C9.  For each of the four actions, when the runtime has no service or the
    service is not initialized, the pre-check returns false whatever the message
    holds, a valid payload included, and leaves the world as it was. *)
Theorem validate_checks_the_service_first
    (runtime : IAgentRuntime) (message : Memory) (w : World) :
  service_not_ready runtime ->
  spawnAOProcessAction_validate JSON_parse ZodError_message runtime message w
    = (Ok false, w)
  /\ sendAOMessageAction_validate JSON_parse ZodError_message runtime message w
    = (Ok false, w)
  /\ readAOResultAction_validate JSON_parse ZodError_message runtime message w
    = (Ok false, w)
  /\ dryRunAOAction_validate JSON_parse ZodError_message runtime message w
    = (Ok false, w).
Proof.
  intros Hs. repeat split; now apply validate_needs_a_ready_service.
Qed.

End PreChecks.

Lemma send_message_validate_witness :
  payload_of sample_JSON_parse {| content_text := VStr text_without_process |}
    = Ok payload_without_process
  /\ lacks_property "process" payload_without_process
  /\ sendAOMessageAction_validate sample_JSON_parse sample_ZodError_message
       (runtime_with (Some initialized_service))
       {| content_text := VStr text_without_process |} empty_world
     = (Ok false, empty_world).
Proof.
  split; [reflexivity |]. split; [reflexivity |].
  apply (send_message_validate_rejects_bad_payload
           sample_JSON_parse sample_ZodError_message
           (runtime_with (Some initialized_service))
           {| content_text := VStr text_without_process |} empty_world
           payload_without_process);
    [reflexivity | left; reflexivity].
Defined.

Lemma validate_service_first_witness :
  service_not_ready (runtime_with (Some (new_AOService None)))
  /\ zod_parse sendMessageSchema valid_send_payload = Some valid_send_payload
  /\ sendAOMessageAction_validate sample_JSON_parse sample_ZodError_message
       (runtime_with (Some initialized_service))
       {| content_text := valid_send_payload |} empty_world
     = (Ok true, empty_world)
  /\ sendAOMessageAction_validate sample_JSON_parse sample_ZodError_message
       (runtime_with (Some (new_AOService None)))
       {| content_text := valid_send_payload |} empty_world
     = (Ok false, empty_world)
  /\ sendAOMessageAction_validate sample_JSON_parse sample_ZodError_message
       (runtime_with None)
       {| content_text := valid_send_payload |} empty_world
     = (Ok false, empty_world).
Proof.
  assert (service_not_ready (runtime_with (Some (new_AOService None)))) as Hs
    by (right; exists (new_AOService None); split; reflexivity).
  split; [exact Hs |]. split; [reflexivity |]. split; [reflexivity |].
  split.
  - exact (proj1 (proj2 (validate_checks_the_service_first
                           sample_JSON_parse sample_ZodError_message
                           (runtime_with (Some (new_AOService None)))
                           {| content_text := valid_send_payload |}
                           empty_world Hs))).
  - exact (proj1 (proj2 (validate_checks_the_service_first
                           sample_JSON_parse sample_ZodError_message
                           (runtime_with None)
                           {| content_text := valid_send_payload |}
                           empty_world (or_introl eq_refl)))).
Defined.

(** * Further properties of the code *)

(** ** Shortened identifiers *)

Lemma length_append (a b : string) :
  String.length (a ++ b) = String.length a + String.length b.
Proof.
  induction a as [|c a IH]; [reflexivity |].
  rewrite append_cons. cbn [String.length]. now rewrite IH.
Qed.

Lemma substring_whole (s : string) :
  String.substring 0 (String.length s) s = s.
Proof.
  induction s as [|c s IH]; [reflexivity |].
  cbn [String.length String.substring]. now rewrite IH.
Qed.

Lemma substring_prefix_of_append (a b : string) :
  String.substring 0 (String.length a) (a ++ b) = a.
Proof.
  induction a as [|c a IH].
  - rewrite append_empty_l. destruct b; reflexivity.
  - rewrite append_cons. cbn [String.length String.substring]. now rewrite IH.
Qed.

Lemma substring_after_prefix (a b : string) (n : nat) :
  String.substring (String.length a) n (a ++ b) = String.substring 0 n b.
Proof.
  induction a as [|c a IH]; [reflexivity |].
  rewrite append_cons. cbn [String.length String.substring]. exact IH.
Qed.

(** A string splits at any position within it. *)
Lemma split_at (n : nat) (s : string) :
  n <= String.length s ->
  exists a b : string, s = a ++ b /\ String.length a = n.
Proof.
  revert s. induction n as [|n IH]; intros s Hn.
  - exists EmptyString, s. split; reflexivity.
  - destruct s as [|c s]; [cbn in Hn; lia |].
    cbn [String.length] in Hn. destruct (IH s) as (a & b & Hs & Ha); [lia |].
    exists (String c a), b. rewrite append_cons, <- Hs. cbn [String.length].
    split; [reflexivity | now rewrite Ha].
Qed.

Lemma formatTransactionHash_of_parts (a mid b : string) :
  String.length a = 6 -> String.length b = 4 ->
  formatTransactionHash (a ++ mid ++ b) = a ++ "..." ++ b.
Proof.
  intros Ha Hb. unfold formatTransactionHash.
  assert (String.length (a ++ mid ++ b) = 10 + String.length mid) as Hlen
    by (rewrite !length_append; lia).
  assert (String.eqb (a ++ mid ++ b) "" = false) as ->.
  { apply String.eqb_neq. intros Heq. rewrite Heq in Hlen. cbn in Hlen. lia. }
  assert ((String.length (a ++ mid ++ b) <? 10)%nat = false) as ->
    by (apply Nat.ltb_ge; lia).
  cbn [orb]. unfold String_slice. rewrite Hlen.
  assert ((0 <? 0)%Z = false) as -> by reflexivity.
  assert ((6 <? 0)%Z = false) as -> by reflexivity.
  assert ((-4 <? 0)%Z = true) as -> by reflexivity.
  replace (Z.to_nat (Z.min 0 (Z.of_nat (10 + String.length mid)))) with 0 by lia.
  replace (Z.to_nat
             (Z.max (Z.min 6 (Z.of_nat (10 + String.length mid))
                     - Z.min 0 (Z.of_nat (10 + String.length mid))) 0))
    with (String.length a) by lia.
  replace (Z.to_nat (Z.max (Z.of_nat (10 + String.length mid) + -4) 0))
    with (String.length (a ++ mid)) by (rewrite length_append; lia).
  replace (Z.to_nat
             (Z.max (Z.of_nat (10 + String.length mid)
                     - Z.max (Z.of_nat (10 + String.length mid) + -4) 0) 0))
    with (String.length b) by lia.
  rewrite substring_prefix_of_append.
  rewrite <- (append_assoc a mid b), substring_after_prefix, substring_whole.
  reflexivity.
Qed.

Lemma long_hash_parts (hash : string) :
  10 <= String.length hash ->
  exists a mid b : string,
    hash = a ++ mid ++ b /\ String.length a = 6 /\ String.length b = 4.
Proof.
  intros Hlen.
  destruct (split_at 6 hash) as (a & rest & Hh & Ha); [lia |].
  assert (String.length rest = String.length hash - 6) as Hrest
    by (rewrite Hh, length_append; lia).
  destruct (split_at (String.length rest - 4) rest) as (mid & b & Hr & Hmid);
    [lia |].
  exists a, mid, b. rewrite <- Hr. split; [exact Hh |]. split; [exact Ha |].
  assert (String.length rest = String.length mid + String.length b) as Hsum
    by (rewrite Hr at 1; apply length_append).
  lia.
Qed.

(** X1.  An identifier of ten characters or more is shown as its first six
    characters, three dots and its last four characters. *)
Theorem formatTransactionHash_keeps_both_ends (hash : string) :
  10 <= String.length hash ->
  exists a mid b : string,
    hash = a ++ mid ++ b
    /\ String.length a = 6 /\ String.length b = 4
    /\ formatTransactionHash hash = a ++ "..." ++ b.
Proof.
  intros Hlen. destruct (long_hash_parts hash Hlen) as (a & mid & b & Hh & Ha & Hb).
  exists a, mid, b. repeat split; try assumption.
  rewrite Hh. now apply formatTransactionHash_of_parts.
Qed.

Lemma formatTransactionHash_keeps_both_ends_witness :
  10 <= String.length "PROCESS_ID_789"
  /\ formatTransactionHash "PROCESS_ID_789" = "PROCES..._789"
  /\ exists a mid b : string,
       "PROCESS_ID_789" = a ++ mid ++ b
       /\ String.length a = 6 /\ String.length b = 4
       /\ formatTransactionHash "PROCESS_ID_789" = a ++ "..." ++ b.
Proof.
  split; [cbn; lia |]. split; [reflexivity |].
  apply (formatTransactionHash_keeps_both_ends "PROCESS_ID_789"). cbn; lia.
Defined.

Lemma formatTransactionHash_short (hash : string) :
  String.length hash < 10 -> formatTransactionHash hash = hash.
Proof.
  intros Hlen. unfold formatTransactionHash.
  assert ((String.length hash <? 10)%nat = true) as ->
    by (apply Nat.ltb_lt; exact Hlen).
  now rewrite orb_true_r.
Qed.

(** X2.  The shortened form has the length of the identifier when that is below
    ten, and thirteen characters otherwise: identifiers of ten to twelve
    characters come out longer than they went in. *)
Theorem formatTransactionHash_length (hash : string) :
  String.length (formatTransactionHash hash)
  = if (String.length hash <? 10)%nat then String.length hash else 13.
Proof.
  destruct (String.length hash <? 10)%nat eqn:Hlt.
  - apply Nat.ltb_lt in Hlt. now rewrite formatTransactionHash_short.
  - apply Nat.ltb_ge in Hlt.
    destruct (long_hash_parts hash Hlt) as (a & mid & b & Hh & Ha & Hb).
    rewrite Hh, formatTransactionHash_of_parts by assumption.
    rewrite !length_append, Ha, Hb. reflexivity.
Qed.

(** X3.  Shortening is idempotent: the shortened form of a shortened identifier
    is that shortened form, for process and message identifiers alike. *)
Theorem formatTransactionHash_idempotent (hash : string) :
  formatTransactionHash (formatTransactionHash hash) = formatTransactionHash hash
  /\ formatProcessId (formatProcessId hash) = formatProcessId hash
  /\ formatMessageId (formatMessageId hash) = formatMessageId hash.
Proof.
  assert (formatTransactionHash (formatTransactionHash hash)
          = formatTransactionHash hash) as Hidem.
  { destruct (Nat.lt_ge_cases (String.length hash) 10) as [Hlt | Hge].
    - rewrite (formatTransactionHash_short hash Hlt).
      exact (formatTransactionHash_short hash Hlt).
    - destruct (long_hash_parts hash Hge) as (a & mid & b & Hh & Ha & Hb).
      rewrite Hh, formatTransactionHash_of_parts by assumption.
      now apply formatTransactionHash_of_parts. }
  unfold formatProcessId, formatMessageId. repeat split; exact Hidem.
Qed.

(** ** The operations of an initialized service *)

Lemma client_calls_emit (ev : Event) (w : World) :
  client_calls (trace (emit ev w))
  = (client_calls (trace w) ++ (if is_client_call ev then [ev] else []))%list.
Proof.
  unfold client_calls, emit. cbn [trace]. rewrite List.filter_app. cbn [List.filter].
  destruct (is_client_call ev); reflexivity.
Qed.

Ltac run_operation :=
  unfold spawnProcess, sendMessage, readResult, dryRun, ensureInitialized,
    try_catch, bind, call, logger_info, logger_error, throw, ret.

(** X4.  On an initialized service each operation calls its primitive of the
    external client exactly once, with the arguments it was given (and the signer
    of the service for spawn and send), and ends as the primitive ended: the
    value returned is returned, the value thrown is thrown again unchanged. *)
Theorem initialized_operations_delegate_once
    (ao : AoConnect) (svc : AOService) (w : World)
    (module scheduler process data messageId : string)
    (tags : option (list Tag)) (anchor : option string) (spawnData : option string) :
  isInitialized svc = true ->
  let spawnArgs :=
    {| spawn_module := module; spawn_scheduler := scheduler;
       spawn_signer := getSigner svc; spawn_tags := tags;
       spawn_data := spawnData |} in
  let messageArgs :=
    {| message_process := process; message_data := data; message_tags := tags;
       message_anchor := anchor; message_signer := getSigner svc |} in
  let resultArgs := {| result_process := process; result_message := messageId |} in
  let dryrunArgs :=
    {| dryrun_process := process; dryrun_data := data; dryrun_tags := tags;
       dryrun_anchor := anchor |} in
  (fst (spawnProcess ao svc module scheduler tags spawnData w)
     = spawn ao spawnArgs (trace w)
   /\ client_calls (trace (snd (spawnProcess ao svc module scheduler tags spawnData w)))
      = (client_calls (trace w) ++ [ESpawn spawnArgs])%list)
  /\ (fst (sendMessage ao svc process data tags anchor w)
        = message ao messageArgs (trace w)
      /\ client_calls (trace (snd (sendMessage ao svc process data tags anchor w)))
         = (client_calls (trace w) ++ [EMessage messageArgs])%list)
  /\ (fst (readResult ao svc process messageId w) = result ao resultArgs (trace w)
      /\ client_calls (trace (snd (readResult ao svc process messageId w)))
         = (client_calls (trace w) ++ [EResult resultArgs])%list)
  /\ (fst (dryRun ao svc process data tags anchor w) = dryrun ao dryrunArgs (trace w)
      /\ client_calls (trace (snd (dryRun ao svc process data tags anchor w)))
         = (client_calls (trace w) ++ [EDryrun dryrunArgs])%list).
Proof.
  unfold isInitialized, getSigner. intros Hinit. cbv zeta.
  run_operation. rewrite Hinit. cbn [negb].
  repeat split;
    match goal with
    | |- context [spawn ao ?a ?t] => destruct (spawn ao a t)
    | |- context [message ao ?a ?t] => destruct (message ao a t)
    | |- context [result ao ?a ?t] => destruct (result ao a t)
    | |- context [dryrun ao ?a ?t] => destruct (dryrun ao a t)
    end; cbn [fst snd]; try reflexivity;
    rewrite !client_calls_emit; cbn [is_client_call]; now rewrite app_nil_r.
Qed.

Lemma initialized_operations_witness :
  isInitialized initialized_service = true
  /\ fst (spawnProcess sample_client initialized_service
            "module-123" "scheduler-123" None None empty_world)
     = Ok "process-123"
  /\ fst (readResult rejecting_client initialized_service
            "process-123" "message-123" empty_world)
     = Ok sample_result.
Proof.
  split; [reflexivity |]. split.
  - exact (proj1 (proj1 (initialized_operations_delegate_once
                           sample_client initialized_service empty_world
                           "module-123" "scheduler-123" "process-123" "test data"
                           "message-123" None None None eq_refl))).
  - reflexivity.
Defined.

Lemma initialize_success_outcome
    (ao : AoConnect) (svc : AOService) (w : World) (c' : Ctx) :
  initialize ao {| this := svc; world := w |} = (Ok tt, c') ->
  isInitialized (this c') = true
  /\ config (this c') = config svc
  /\ aoConfig (world c') = aoConfig w
  /\ (if truthy (field (config svc) "wallet")
      then exists s : Signer,
             createSigner ao (field (config svc) "wallet") (trace w) = Ok s
             /\ getSigner (this c') = Some s
      else getSigner (this c') = getSigner svc).
Proof.
  unfold isInitialized, getSigner.
  run_initialize.
  destruct (truthy (field (config svc) "wallet")) eqn:Hw; step_initialize.
  - destruct (createSigner ao (field (config svc) "wallet") (trace w))
      as [s|e1] eqn:Hs; step_initialize; [| discriminate].
    destruct (0 <? size (effective_profile (config svc) (aoConfig w)))%nat;
      step_initialize.
    + match goal with
      | |- context [connect ao ?a ?t] => destruct (connect ao a t) as [[]|e2]
      end; step_initialize; intros H; inversion H; subst; cbn.
      repeat split; try reflexivity. exists s. split; reflexivity.
    + intros H; inversion H; subst; cbn.
      repeat split; try reflexivity. exists s. split; reflexivity.
  - destruct (0 <? size (effective_profile (config svc) (aoConfig w)))%nat;
      step_initialize.
    + match goal with
      | |- context [connect ao ?a ?t] => destruct (connect ao a t) as [[]|e2]
      end; step_initialize; intros H; inversion H; subst; cbn.
      repeat split; reflexivity.
    + intros H; inversion H; subst; cbn. repeat split; reflexivity.
Qed.

(** X5.  When [initialize] returns normally the service is initialized and its
    configuration is as before.  With a wallet in the configuration the signer is
    the one [createSigner] made from it; without a wallet the signer is left as it
    was, so a signer from an earlier initialization stays in place. *)
Theorem successful_initialize_state
    (ao : AoConnect) (svc : AOService) (w : World) (c' : Ctx) :
  initialize ao {| this := svc; world := w |} = (Ok tt, c') ->
  isInitialized (this c') = true
  /\ config (this c') = config svc
  /\ aoConfig (world c') = aoConfig w
  /\ (if truthy (field (config svc) "wallet")
      then exists s : Signer,
             createSigner ao (field (config svc) "wallet") (trace w) = Ok s
             /\ getSigner (this c') = Some s
      else getSigner (this c') = getSigner svc).
Proof.
  intros Hok. now apply initialize_success_outcome.
Qed.

Lemma successful_initialize_witness :
  isInitialized
    (this (snd (initialize sample_client
                  {| this := wallet_service; world := empty_world |}))) = true
  /\ getSigner
       (this (snd (initialize sample_client
                     {| this := wallet_service; world := empty_world |})))
     = Some (SignerHandle 1).
Proof.
  destruct (successful_initialize_state sample_client wallet_service empty_world
              (snd (initialize sample_client
                      {| this := wallet_service; world := empty_world |}))
              eq_refl) as (Hflag & _ & _ & _).
  split; [exact Hflag | reflexivity].
Defined.

(** X6.  After [stop], whatever the service was before, each of the four
    operations throws the error of the guard and calls nothing; [stop] itself
    calls no primitive of the external client either. *)
Theorem stopped_service_rejects_operations
    (ao : AoConnect) (svc : AOService) (w : World)
    (module scheduler process data messageId : string)
    (tags : option (list Tag)) (anchor : option string) (spawnData : option string) :
  let c1 := snd (stop {| this := svc; world := w |}) in
  spawnProcess ao (this c1) module scheduler tags spawnData (world c1)
    = (Throw (new_Error guard_message), world c1)
  /\ sendMessage ao (this c1) process data tags anchor (world c1)
    = (Throw (new_Error guard_message), world c1)
  /\ readResult ao (this c1) process messageId (world c1)
    = (Throw (new_Error guard_message), world c1)
  /\ dryRun ao (this c1) process data tags anchor (world c1)
    = (Throw (new_Error guard_message), world c1)
  /\ client_calls (trace (world c1)) = client_calls (trace w).
Proof.
  cbv zeta. repeat split; try reflexivity.
  cbn. unfold client_calls. rewrite List.filter_app. cbn. now rewrite app_nil_r.
Qed.

(** ** Normalisation never fails and uses four codes *)

Lemma handleAOError_outcome (error : thrown) (w : World) :
  exists r : AOErrorResponse.t,
    handleAOError error w = (Ok r, logged error w)
    /\ (instanceof_AOError error = false ->
        (exists i : nat,
           classified_codes !! i = Some (AOErrorResponse.code r)
           /\ classified_messages !! i = Some (AOErrorResponse.message r))
        /\ (exists s1 s2 : string,
              AOErrorResponse.suggestions r = Some [s1; s2])
        /\ (exists text : string,
              AOErrorResponse.details r = originalError text)).
Proof.
  destruct error as [e | name message | message | v].
  - exists (AOError.toResponse e). split; [reflexivity | discriminate].
  - unfold handleAOError, bind, logger_error, ret, logged.
    destruct (includes "insufficient funds" message);
      [| destruct (includes "network" message || includes "connection" message);
         [| destruct (includes "reverted" message)]];
      eexists; (split; [reflexivity |]); intros _; cbn;
      (split; [| split; eauto]).
    + exists 0. split; reflexivity.
    + exists 1. split; reflexivity.
    + exists 2. split; reflexivity.
    + exists 3. split; reflexivity.
  - unfold handleAOError, bind, logger_error, ret, logged.
    destruct (includes "insufficient funds" message);
      [| destruct (includes "network" message || includes "connection" message);
         [| destruct (includes "reverted" message)]];
      eexists; (split; [reflexivity |]); intros _; cbn;
      (split; [| split; eauto]).
    + exists 0. split; reflexivity.
    + exists 1. split; reflexivity.
    + exists 2. split; reflexivity.
    + exists 3. split; reflexivity.
  - eexists. split; [reflexivity |]. intros _. cbn.
    split; [exists 3; split; reflexivity | split; eauto].
Qed.


(** ** The providers *)

Ltac run_provider :=
  unfold aoServiceStatusProvider_get, aoWalletInfoProvider_get, service_of,
    try_catch, bind, ret.



(** X10.  Through the lifecycle: after [stop] the wallet provider reports no
    wallet, whatever the service was; after an [initialize] that returned
    normally on a service configured with a wallet it reports a connected
    wallet. *)
Theorem wallet_provider_follows_the_lifecycle
    (ao : AoConnect) (svc : AOService) (w : World) :
  fst (aoWalletInfoProvider_get
         (runtime_with (Some (this (snd (stop {| this := svc; world := w |})))))
         w)
  = Ok wallet_not_connected
  /\ (truthy (field (config svc) "wallet") = true ->
      fst (initialize ao {| this := svc; world := w |}) = Ok tt ->
      exists r : ProviderResult.t,
        fst (aoWalletInfoProvider_get
               (runtime_with
                  (Some (this (snd (initialize ao {| this := svc; world := w |})))))
               w)
        = Ok r
        /\ prop (ProviderResult.values r) "connected" = VBool true).
Proof.
  split; [reflexivity |].
  intros Hw Hok.
  destruct (initialize ao {| this := svc; world := w |}) as [r c'] eqn:Hinit.
  cbn [fst snd] in *. subst r.
  destruct (initialize_success_outcome ao svc w c' Hinit)
    as (Hflag & _ & _ & Hsigner).
  rewrite Hw in Hsigner. destruct Hsigner as (s & _ & Hs).
  unfold isInitialized in Hflag. unfold getSigner in Hs.
  run_provider. unfold runtime_with, getSigner, isInitialized. cbn.
  rewrite Hs, Hflag. cbn. eexists. split; reflexivity.
Qed.

Lemma wallet_provider_lifecycle_witness :
  truthy (field (config wallet_service) "wallet") = true
  /\ fst (initialize sample_client
            {| this := wallet_service; world := empty_world |}) = Ok tt
  /\ exists r : ProviderResult.t,
       fst (aoWalletInfoProvider_get
              (runtime_with
                 (Some (this (snd (initialize sample_client
                                     {| this := wallet_service;
                                        world := empty_world |})))))
              empty_world)
       = Ok r
       /\ prop (ProviderResult.values r) "connected" = VBool true.
Proof.
  split; [reflexivity |]. split; [reflexivity |].
  exact (proj2 (wallet_provider_follows_the_lifecycle
                  sample_client wallet_service empty_world) eq_refl eq_refl).
Defined.

(** ** The handlers of the actions *)

Section HandlerFacts.

Variable ao : AoConnect.
Variable JSON_parse : string -> Result value.
Variable ZodError_message : zod -> value -> string.

Lemma validated_input_no_service (schema : zod) (runtime : IAgentRuntime)
    (message : Memory) (w : World) :
  getService runtime "ao" = Ok None ->
  validated_input JSON_parse ZodError_message schema runtime message w
  = (Throw service_not_found, w).
Proof.
  intros H. unfold validated_input, bind. now rewrite H.
Qed.

Lemma validated_input_ok (schema : zod) (runtime : IAgentRuntime)
    (message : Memory) (w : World) (svc : AOService) (input out : value) :
  getService runtime "ao" = Ok (Some svc) ->
  payload_of JSON_parse message = Ok input ->
  zod_parse schema input = Some out ->
  validated_input JSON_parse ZodError_message schema runtime message w
  = (Ok (svc, out), w).
Proof.
  intros Hs Hp Hz. unfold validated_input, bind, parseAsync, ret.
  now rewrite Hs, Hp, Hz.
Qed.

Lemma validated_input_invalid (schema : zod) (runtime : IAgentRuntime)
    (message : Memory) (w : World) (svc : AOService) (input : value) :
  getService runtime "ao" = Ok (Some svc) ->
  payload_of JSON_parse message = Ok input ->
  zod_parse schema input = None ->
  validated_input JSON_parse ZodError_message schema runtime message w
  = (Throw (TZodError (ZodError_message schema input)), w).
Proof.
  intros Hs Hp Hz. unfold validated_input, bind, parseAsync, throw.
  now rewrite Hs, Hp, Hz.
Qed.

(** Finding and validating the input touches nothing. *)
Lemma validated_input_silent (schema : zod) (runtime : IAgentRuntime)
    (message : Memory) (w : World) :
  snd (validated_input JSON_parse ZodError_message schema runtime message w) = w.
Proof.
  unfold validated_input, bind, parseAsync, throw, ret.
  destruct (getService runtime "ao") as [[svc|]|e]; try reflexivity.
  destruct (payload_of JSON_parse message) as [input|e]; try reflexivity.
  destruct (zod_parse schema input); reflexivity.
Qed.

(** The catch block without a callback: the envelope it makes. *)
Lemma failure_result_without_callback (failed actionName : string)
    (error : thrown) (w : World) :
  exists r : AOErrorResponse.t,
    handleAOError error w = (Ok r, logged error w)
    /\ failure_result failed actionName None error w
       = (Ok (failure_envelope failed actionName (AOErrorResponse.message r)
                (if truthy (AOErrorResponse.details r)
                 then new_Error (js_String (AOErrorResponse.details r))
                 else new_Error (AOErrorResponse.message r))
                (AOErrorResponse.suggestions r)),
          logged error w).
Proof.
  destruct (handleAOError_outcome error w) as (r & Hr & _).
  exists r. split; [exact Hr |].
  unfold failure_result, bind, call_back, ret. now rewrite Hr.
Qed.


End HandlerFacts.

(** *** Steps of the monad *)


Lemma bind_step {S A B} (m : M S A) (k : A -> M S B) (s s1 : S) (a : A) :
  m s = (Ok a, s1) -> bind m k s = k a s1.
Proof. unfold bind. now intros ->. Qed.

Lemma bind_throw {S A B} (m : M S A) (k : A -> M S B) (s s1 : S) (e : thrown) :
  m s = (Throw e, s1) -> bind m k s = (Throw e, s1).
Proof. unfold bind. now intros ->. Qed.

Lemma try_catch_ok {S A} (body : M S A) (h : thrown -> M S A) (s s1 : S) (a : A) :
  body s = (Ok a, s1) -> try_catch body h s = (Ok a, s1).
Proof. unfold try_catch. now intros ->. Qed.

Lemma try_catch_throw {S A} (body : M S A) (h : thrown -> M S A) (s s1 : S)
    (e : thrown) :
  body s = (Throw e, s1) -> try_catch body h s = h e s1.
Proof. unfold try_catch. now intros ->. Qed.




Section HandlerProperties.

Variable ao : AoConnect.
Variable JSON_parse : string -> Result value.
Variable ZodError_message : zod -> value -> string.

Ltac unfold_handlers :=
  unfold spawnAOProcessAction_handler, sendAOMessageAction_handler,
    readAOResultAction_handler, dryRunAOAction_handler.



Lemma client_calls_logged (error : thrown) (w : World) :
  client_calls (trace (logged error w)) = client_calls (trace w).
Proof.
  unfold logged. rewrite client_calls_emit. cbn. apply app_nil_r.
Qed.

(** The guard, for each operation. *)
Lemma guard_rejects_spawn (svc : AOService) (w : World) (module scheduler : string)
    (tags : option (list Tag)) (data : option string) :
  initialized svc = false ->
  spawnProcess ao svc module scheduler tags data w
  = (Throw (new_Error guard_message), w).
Proof.
  intros Hinit. unfold spawnProcess, bind, ensureInitialized. now rewrite Hinit.
Qed.

Lemma guard_rejects_send (svc : AOService) (w : World) (process data : string)
    (tags : option (list Tag)) (anchor : option string) :
  initialized svc = false ->
  sendMessage ao svc process data tags anchor w
  = (Throw (new_Error guard_message), w).
Proof.
  intros Hinit. unfold sendMessage, bind, ensureInitialized. now rewrite Hinit.
Qed.

Lemma guard_rejects_read (svc : AOService) (w : World) (process messageId : string) :
  initialized svc = false ->
  readResult ao svc process messageId w = (Throw (new_Error guard_message), w).
Proof.
  intros Hinit. unfold readResult, bind, ensureInitialized. now rewrite Hinit.
Qed.

Lemma guard_rejects_dryRun (svc : AOService) (w : World) (process data : string)
    (tags : option (list Tag)) (anchor : option string) :
  initialized svc = false ->
  dryRun ao svc process data tags anchor w
  = (Throw (new_Error guard_message), w).
Proof.
  intros Hinit. unfold dryRun, bind, ensureInitialized. now rewrite Hinit.
Qed.

(** A handler whose body throws at once, without a callback. *)
Lemma failed_before_the_client (body : M World ActionResult.t)
    (failed actionName : string) (e : thrown) (w : World) :
  body w = (Throw e, w) ->
  exists r : ActionResult.t,
    try_catch body (failure_result failed actionName None) w = (Ok r, logged e w)
    /\ ActionResult.success r = false.
Proof.
  intros Hb. rewrite (try_catch_throw _ _ _ _ _ Hb).
  destruct (failure_result_without_callback failed actionName e w)
    as (resp & _ & Hf).
  eexists. split; [exact Hf | reflexivity].
Qed.

(** The states in which the body of a handler throws before any call. *)
Lemma body_stops_early {A} (schema : zod) (runtime : IAgentRuntime)
    (message : Memory) (w : World)
    (rest : AOService * value -> M World A) :
  (forall (svc : AOService) (out : value),
     initialized svc = false ->
     exists e : thrown, rest (svc, out) w = (Throw e, w)) ->
  (forall (svc : AOService) (input out : value),
     getService runtime "ao" = Ok (Some svc) ->
     isInitialized svc = true ->
     payload_of JSON_parse message = Ok input ->
     zod_parse schema input = Some out -> False) ->
  exists e : thrown,
    bind (validated_input JSON_parse ZodError_message schema runtime message) rest w
    = (Throw e, w).
Proof.
  intros Hguard Hnot.
  unfold validated_input, bind, parseAsync, throw, ret.
  destruct (getService runtime "ao") as [[svc|]|e] eqn:Hs; eauto.
  destruct (payload_of JSON_parse message) as [input|e] eqn:Hp; eauto.
  destruct (zod_parse schema input) as [out|] eqn:Hz; eauto.
  destruct (initialized svc) eqn:Hi; [| now apply Hguard].
  exfalso. exact (Hnot svc input out eq_refl Hi eq_refl Hz).
Qed.

(** X13.  Without a callback, a handler reaches the external client only for a
    valid payload on an initialized service: when the service is missing or not
    initialized, or the text does not parse, or the payload has an issue under
    the schema of the action, the handler answers with success false and the
    calls of the client are as before. *)
Theorem handlers_reach_the_client_only_when_ready
    (runtime : IAgentRuntime) (message : Memory) (w : World) :
  let ready (schema : zod) :=
    exists (svc : AOService) (input out : value),
      getService runtime "ao" = Ok (Some svc)
      /\ isInitialized svc = true
      /\ payload_of JSON_parse message = Ok input
      /\ zod_parse schema input = Some out in
  let refused (run : M World ActionResult.t) :=
    exists (r : ActionResult.t) (w' : World),
      run w = (Ok r, w')
      /\ ActionResult.success r = false
      /\ client_calls (trace w') = client_calls (trace w) in
  (~ ready spawnProcessSchema ->
   refused (spawnAOProcessAction_handler ao JSON_parse ZodError_message
              runtime message None))
  /\ (~ ready sendMessageSchema ->
      refused (sendAOMessageAction_handler ao JSON_parse ZodError_message
                 runtime message None))
  /\ (~ ready readResultSchema ->
      refused (readAOResultAction_handler ao JSON_parse ZodError_message
                 runtime message None))
  /\ (~ ready dryRunSchema ->
      refused (dryRunAOAction_handler ao JSON_parse ZodError_message
                 runtime message None)).
Proof.
  cbv zeta. unfold_handlers.
  repeat split; intros Hnot;
    match goal with
    | |- context [try_catch (bind (validated_input _ _ ?schema _ _) ?rest) _] =>
        destruct (body_stops_early schema runtime message w rest) as [e He]
    end;
    try (intros svc input out Hs Hi Hp Hz; apply Hnot; now exists svc, input, out);
    try (intros svc out Hi; cbn [fst snd]; eexists; apply bind_throw;
         first [ now apply guard_rejects_spawn | now apply guard_rejects_send
               | now apply guard_rejects_read | now apply guard_rejects_dryRun ]);
    match goal with
    | |- context [failure_result ?f ?a None] =>
        destruct (failed_before_the_client _ f a e w He) as (r & Hr & Hsucc)
    end;
    exists r, (logged e w); repeat split; try assumption;
    apply client_calls_logged.
Qed.

End HandlerProperties.


Section HandlerEnvelopes.

Variable ao : AoConnect.
Variable JSON_parse : string -> Result value.
Variable ZodError_message : zod -> value -> string.

Ltac unfold_handlers :=
  unfold spawnAOProcessAction_handler, sendAOMessageAction_handler,
    readAOResultAction_handler, dryRunAOAction_handler.

(** X14.  When the runtime has no service, each handler, without a callback,
    answers with the failure text of its action followed by AOService not found,
    carries an error with that message and the one suggestion of the handler, and
    only logs. *)
Theorem handlers_name_the_missing_service
    (runtime : IAgentRuntime) (message : Memory) (w : World) :
  getService runtime "ao" = Ok None ->
  let answer (failed actionName : string) :=
    (Ok (failure_envelope failed actionName "AOService not found"
           (new_Error "AOService not found")
           (Some ["Ensure the AO plugin is properly initialized"])),
     logged service_not_found w) in
  spawnAOProcessAction_handler ao JSON_parse ZodError_message runtime message None w
    = answer "Failed to spawn AO process: " "SPAWN_AO_PROCESS"
  /\ sendAOMessageAction_handler ao JSON_parse ZodError_message runtime message None w
    = answer "Failed to send message to AO process: " "SEND_AO_MESSAGE"
  /\ readAOResultAction_handler ao JSON_parse ZodError_message runtime message None w
    = answer "Failed to read result from AO process: " "READ_AO_RESULT"
  /\ dryRunAOAction_handler ao JSON_parse ZodError_message runtime message None w
    = answer "Failed to execute dry run on AO process: " "DRY_RUN_AO".
Proof.
  intros Hnone. cbv zeta. unfold_handlers.
  repeat split;
    (erewrite try_catch_throw;
     [| apply bind_throw; now apply validated_input_no_service]);
    reflexivity.
Qed.

(** X15.  When the service is there but not initialized and the payload is
    valid, each handler, without a callback, answers with the failure text of its
    action followed by An unexpected error occurred, the generic suggestions, and
    an error whose message is the text [object Object]: the cause, the error of
    the guard, is in the log only.  No primitive of the client is called. *)
Theorem handlers_hide_the_uninitialized_service
    (runtime : IAgentRuntime) (message : Memory) (w : World)
    (svc : AOService) (input : value) :
  getService runtime "ao" = Ok (Some svc) ->
  isInitialized svc = false ->
  payload_of JSON_parse message = Ok input ->
  let answer (failed actionName : string) :=
    (Ok (failure_envelope failed actionName "An unexpected error occurred"
           (new_Error "[object Object]")
           (Some ["Please try again"; "Contact support if the issue persists"])),
     logged (new_Error guard_message) w) in
  (is_Some (zod_parse spawnProcessSchema input) ->
   spawnAOProcessAction_handler ao JSON_parse ZodError_message runtime message None w
   = answer "Failed to spawn AO process: " "SPAWN_AO_PROCESS")
  /\ (is_Some (zod_parse sendMessageSchema input) ->
      sendAOMessageAction_handler ao JSON_parse ZodError_message runtime message
        None w
      = answer "Failed to send message to AO process: " "SEND_AO_MESSAGE")
  /\ (is_Some (zod_parse readResultSchema input) ->
      readAOResultAction_handler ao JSON_parse ZodError_message runtime message
        None w
      = answer "Failed to read result from AO process: " "READ_AO_RESULT")
  /\ (is_Some (zod_parse dryRunSchema input) ->
      dryRunAOAction_handler ao JSON_parse ZodError_message runtime message None w
      = answer "Failed to execute dry run on AO process: " "DRY_RUN_AO").
Proof.
  unfold isInitialized. intros Hs Hi Hp. cbv zeta. unfold_handlers.
  repeat split; intros [out Hz];
    (erewrite try_catch_throw;
     [| erewrite bind_step by (eapply validated_input_ok; eassumption);
        apply bind_throw; cbn [fst snd];
        first [ now apply guard_rejects_spawn | now apply guard_rejects_send
              | now apply guard_rejects_read | now apply guard_rejects_dryRun ]]);
    reflexivity.
Qed.

End HandlerEnvelopes.

Lemma handlers_missing_service_witness :
  getService (runtime_with None) "ao" = Ok None
  /\ ActionResult.text
       <$> (match fst (sendAOMessageAction_handler sample_client sample_JSON_parse
                         sample_ZodError_message (runtime_with None)
                         {| content_text := valid_send_payload |} None empty_world)
            with Ok r => Some r | Throw _ => None end)
     = Some "Failed to send message to AO process: AOService not found".
Proof.
  split; [reflexivity |].
  now rewrite (proj1 (proj2 (handlers_name_the_missing_service
                               sample_client sample_JSON_parse
                               sample_ZodError_message (runtime_with None)
                               {| content_text := valid_send_payload |}
                               empty_world eq_refl))).
Defined.

Lemma handlers_uninitialized_witness :
  getService (runtime_with (Some (new_AOService None))) "ao"
    = Ok (Some (new_AOService None))
  /\ isInitialized (new_AOService None) = false
  /\ payload_of sample_JSON_parse {| content_text := valid_send_payload |}
     = Ok valid_send_payload
  /\ sendAOMessageAction_handler sample_client sample_JSON_parse
       sample_ZodError_message (runtime_with (Some (new_AOService None)))
       {| content_text := valid_send_payload |} None empty_world
     = (Ok (failure_envelope "Failed to send message to AO process: "
              "SEND_AO_MESSAGE" "An unexpected error occurred"
              (new_Error "[object Object]")
              (Some ["Please try again"; "Contact support if the issue persists"])),
        logged (new_Error guard_message) empty_world).
Proof.
  split; [reflexivity |]. split; [reflexivity |]. split; [reflexivity |].
  apply (proj1 (proj2 (handlers_hide_the_uninitialized_service
                         sample_client sample_JSON_parse sample_ZodError_message
                         (runtime_with (Some (new_AOService None)))
                         {| content_text := valid_send_payload |} empty_world
                         (new_AOService None) valid_send_payload
                         eq_refl eq_refl eq_refl))).
  eexists. reflexivity.
Defined.

Section HandlerSuccess.

Variable ao : AoConnect.
Variable JSON_parse : string -> Result value.
Variable ZodError_message : zod -> value -> string.

Ltac unfold_handlers :=
  unfold spawnAOProcessAction_handler, sendAOMessageAction_handler,
    readAOResultAction_handler, dryRunAOAction_handler.

Ltac run_initialized_operation Hinit Hcall :=
  unfold spawnProcess, sendMessage, readResult, dryRun, ensureInitialized,
    try_catch, bind, call, logger_info, ret;
  rewrite Hinit; cbn -[emit String.append]; rewrite Hcall; reflexivity.

Lemma spawnProcess_returns (svc : AOService) (w : World) (module scheduler : string)
    (tags : option (list Tag)) (data : option string) (processId : string) :
  let args := {| spawn_module := module; spawn_scheduler := scheduler;
                 spawn_signer := signer svc; spawn_tags := tags;
                 spawn_data := data |} in
  initialized svc = true ->
  spawn ao args (trace w) = Ok processId ->
  spawnProcess ao svc module scheduler tags data w
  = (Ok processId,
     emit (ELog LogInfo ("AOService: Process spawned with ID " ++ processId) None)
       (emit (ESpawn args) w)).
Proof. cbv zeta. intros Hinit Hcall. run_initialized_operation Hinit Hcall. Qed.

Lemma sendMessage_returns (svc : AOService) (w : World) (process data : string)
    (tags : option (list Tag)) (anchor : option string) (messageId : string) :
  let args := {| message_process := process; message_data := data;
                 message_tags := tags; message_anchor := anchor;
                 message_signer := signer svc |} in
  initialized svc = true ->
  message ao args (trace w) = Ok messageId ->
  sendMessage ao svc process data tags anchor w
  = (Ok messageId,
     emit (ELog LogInfo ("AOService: Message sent with ID " ++ messageId
                         ++ " to process " ++ process) None)
       (emit (EMessage args) w)).
Proof. cbv zeta. intros Hinit Hcall. run_initialized_operation Hinit Hcall. Qed.

Lemma readResult_returns (svc : AOService) (w : World) (process messageId : string)
    (res : AOResult) :
  let args := {| result_process := process; result_message := messageId |} in
  initialized svc = true ->
  result ao args (trace w) = Ok res ->
  readResult ao svc process messageId w
  = (Ok res,
     emit (ELog LogInfo ("AOService: Read result for message " ++ messageId
                         ++ " from process " ++ process) None)
       (emit (EResult args) w)).
Proof. cbv zeta. intros Hinit Hcall. run_initialized_operation Hinit Hcall. Qed.

Lemma dryRun_returns (svc : AOService) (w : World) (process data : string)
    (tags : option (list Tag)) (anchor : option string) (res : AOResult) :
  let args := {| dryrun_process := process; dryrun_data := data;
                 dryrun_tags := tags; dryrun_anchor := anchor |} in
  initialized svc = true ->
  dryrun ao args (trace w) = Ok res ->
  dryRun ao svc process data tags anchor w
  = (Ok res,
     emit (ELog LogInfo ("AOService: Dry run executed for process " ++ process) None)
       (emit (EDryrun args) w)).
Proof. cbv zeta. intros Hinit Hcall. run_initialized_operation Hinit Hcall. Qed.

Ltac run_successful_handler Hs Hi Hp Hz Hcall lemma :=
  unfold_handlers;
  eexists; split;
  [ apply try_catch_ok;
    erewrite bind_step by (eapply validated_input_ok; eassumption);
    cbn [fst snd];
    erewrite bind_step by (apply lemma; [exact Hi | exact Hcall]);
    reflexivity
  | rewrite !client_calls_emit; cbn [is_client_call]; now rewrite !app_nil_r ].

(** X16.  The spawn handler, without a callback, on an initialized service and a
    valid payload whose spawn the client answers with a process identifier:
    success is true, the text is Successfully spawned AO process with ID followed
    by the identifier, the data name the identifier, the module and the
    scheduler, and the client was called once, with the validated module,
    scheduler, tags and data and the signer of the service. *)
Theorem spawn_handler_reports_the_process
    (runtime : IAgentRuntime) (message : Memory) (w : World)
    (svc : AOService) (input out : value) (processId : string) :
  getService runtime "ao" = Ok (Some svc) ->
  isInitialized svc = true ->
  payload_of JSON_parse message = Ok input ->
  zod_parse spawnProcessSchema input = Some out ->
  let args :=
    {| spawn_module := string_field (prop out "module");
       spawn_scheduler := string_field (prop out "scheduler");
       spawn_signer := getSigner svc;
       spawn_tags := optional_tags_field (prop out "tags");
       spawn_data := optional_string_field (prop out "data") |} in
  spawn ao args (trace w) = Ok processId ->
  exists w' : World,
    spawnAOProcessAction_handler ao JSON_parse ZodError_message runtime message
      None w
    = (Ok {| ActionResult.success := true;
             ActionResult.text :=
               "Successfully spawned AO process with ID: " ++ processId;
             ActionResult.error := None;
             ActionResult.data :=
               [("actionName", DValue (VStr "SPAWN_AO_PROCESS"));
                ("processId", DValue (VStr processId));
                ("module", DValue (prop out "module"));
                ("scheduler", DValue (prop out "scheduler"))] |}, w')
    /\ client_calls (trace w') = (client_calls (trace w) ++ [ESpawn args])%list.
Proof.
  unfold isInitialized, getSigner. intros Hs Hi Hp Hz. cbv zeta. intros Hcall.
  run_successful_handler Hs Hi Hp Hz Hcall spawnProcess_returns.
Qed.

(** X17.  The send-message handler, without a callback, on an initialized
    service and a valid payload whose message the client answers with a message
    identifier: success is true, the text names the identifier and the process,
    and the client was called once, with the validated process, data, tags and
    anchor and the signer of the service. *)
Theorem send_handler_reports_the_message
    (runtime : IAgentRuntime) (memory : Memory) (w : World)
    (svc : AOService) (input out : value) (messageId : string) :
  getService runtime "ao" = Ok (Some svc) ->
  isInitialized svc = true ->
  payload_of JSON_parse memory = Ok input ->
  zod_parse sendMessageSchema input = Some out ->
  let args :=
    {| message_process := string_field (prop out "process");
       message_data := string_field (prop out "data");
       message_tags := optional_tags_field (prop out "tags");
       message_anchor := optional_string_field (prop out "anchor");
       message_signer := getSigner svc |} in
  message ao args (trace w) = Ok messageId ->
  exists w' : World,
    sendAOMessageAction_handler ao JSON_parse ZodError_message runtime memory
      None w
    = (Ok {| ActionResult.success := true;
             ActionResult.text :=
               "Successfully sent message with ID: " ++ messageId
               ++ " to process: " ++ js_String (prop out "process");
             ActionResult.error := None;
             ActionResult.data :=
               [("actionName", DValue (VStr "SEND_AO_MESSAGE"));
                ("messageId", DValue (VStr messageId));
                ("processId", DValue (prop out "process"))] |}, w')
    /\ client_calls (trace w') = (client_calls (trace w) ++ [EMessage args])%list.
Proof.
  unfold isInitialized, getSigner. intros Hs Hi Hp Hz. cbv zeta. intros Hcall.
  run_successful_handler Hs Hi Hp Hz Hcall sendMessage_returns.
Qed.

(** X18.  The read-result handler, without a callback, on an initialized service
    and a valid payload whose result the client returns: success is true, the
    text is the formatted result, the data carry the result itself, and the
    client was called once, with the validated process and message identifier. *)
Theorem read_handler_reports_the_result
    (runtime : IAgentRuntime) (message : Memory) (w : World)
    (svc : AOService) (input out : value) (res : AOResult) :
  getService runtime "ao" = Ok (Some svc) ->
  isInitialized svc = true ->
  payload_of JSON_parse message = Ok input ->
  zod_parse readResultSchema input = Some out ->
  let args :=
    {| result_process := string_field (prop out "process");
       result_message := string_field (prop out "messageId") |} in
  result ao args (trace w) = Ok res ->
  exists w' : World,
    readAOResultAction_handler ao JSON_parse ZodError_message runtime message
      None w
    = (Ok {| ActionResult.success := true;
             ActionResult.text := formatAOResult res;
             ActionResult.error := None;
             ActionResult.data :=
               [("actionName", DValue (VStr "READ_AO_RESULT"));
                ("processId", DValue (prop out "process"));
                ("messageId", DValue (prop out "messageId"));
                ("result", DResult res)] |}, w')
    /\ client_calls (trace w') = (client_calls (trace w) ++ [EResult args])%list.
Proof.
  unfold isInitialized. intros Hs Hi Hp Hz. cbv zeta. intros Hcall.
  run_successful_handler Hs Hi Hp Hz Hcall readResult_returns.
Qed.

(** X19.  The dry-run handler, without a callback, on an initialized service and
    a valid payload whose dry run the client returns: success is true, the text
    is a heading that names the process, a newline and the formatted result, and
    the client was called once, with the validated process, data, tags and
    anchor and without a signer. *)
Theorem dry_run_handler_reports_the_result
    (runtime : IAgentRuntime) (message : Memory) (w : World)
    (svc : AOService) (input out : value) (res : AOResult) :
  getService runtime "ao" = Ok (Some svc) ->
  isInitialized svc = true ->
  payload_of JSON_parse message = Ok input ->
  zod_parse dryRunSchema input = Some out ->
  let args :=
    {| dryrun_process := string_field (prop out "process");
       dryrun_data := string_field (prop out "data");
       dryrun_tags := optional_tags_field (prop out "tags");
       dryrun_anchor := optional_string_field (prop out "anchor") |} in
  dryrun ao args (trace w) = Ok res ->
  exists w' : World,
    dryRunAOAction_handler ao JSON_parse ZodError_message runtime message None w
    = (Ok {| ActionResult.success := true;
             ActionResult.text :=
               "Dry run result for process " ++ js_String (prop out "process")
               ++ ":" ++ nl ++ formatAOResult res;
             ActionResult.error := None;
             ActionResult.data :=
               [("actionName", DValue (VStr "DRY_RUN_AO"));
                ("processId", DValue (prop out "process"));
                ("result", DResult res)] |}, w')
    /\ client_calls (trace w') = (client_calls (trace w) ++ [EDryrun args])%list.
Proof.
  unfold isInitialized. intros Hs Hi Hp Hz. cbv zeta. intros Hcall.
  run_successful_handler Hs Hi Hp Hz Hcall dryRun_returns.
Qed.

End HandlerSuccess.

Lemma spawn_handler_witness :
  exists w' : World,
    spawnAOProcessAction_handler sample_client sample_JSON_parse
      sample_ZodError_message (runtime_with (Some initialized_service))
      {| content_text := valid_spawn_payload |} None empty_world
    = (Ok {| ActionResult.success := true;
             ActionResult.text :=
               "Successfully spawned AO process with ID: process-123";
             ActionResult.error := None;
             ActionResult.data :=
               [("actionName", DValue (VStr "SPAWN_AO_PROCESS"));
                ("processId", DValue (VStr "process-123"));
                ("module", DValue (VStr "MODULE_ID_123"));
                ("scheduler", DValue (VStr "SCHEDULER_ID_456"))] |}, w')
    /\ client_calls (trace w')
       = [ESpawn {| spawn_module := "MODULE_ID_123";
                    spawn_scheduler := "SCHEDULER_ID_456";
                    spawn_signer := None; spawn_tags := None;
                    spawn_data := None |}].
Proof.
  exact (spawn_handler_reports_the_process
           sample_client sample_JSON_parse sample_ZodError_message
           (runtime_with (Some initialized_service))
           {| content_text := valid_spawn_payload |} empty_world
           initialized_service valid_spawn_payload valid_spawn_payload
           "process-123" eq_refl eq_refl eq_refl eq_refl eq_refl).
Defined.

Lemma send_handler_witness :
  exists w' : World,
    sendAOMessageAction_handler sample_client sample_JSON_parse
      sample_ZodError_message (runtime_with (Some initialized_service))
      {| content_text := valid_send_payload |} None empty_world
    = (Ok {| ActionResult.success := true;
             ActionResult.text :=
               "Successfully sent message with ID: message-123"
               ++ " to process: process-123";
             ActionResult.error := None;
             ActionResult.data :=
               [("actionName", DValue (VStr "SEND_AO_MESSAGE"));
                ("messageId", DValue (VStr "message-123"));
                ("processId", DValue (VStr "process-123"))] |}, w')
    /\ client_calls (trace w')
       = [EMessage {| message_process := "process-123";
                      message_data := "test message";
                      message_tags := None; message_anchor := None;
                      message_signer := None |}].
Proof.
  exact (send_handler_reports_the_message
           sample_client sample_JSON_parse sample_ZodError_message
           (runtime_with (Some initialized_service))
           {| content_text := valid_send_payload |} empty_world
           initialized_service valid_send_payload valid_send_payload
           "message-123" eq_refl eq_refl eq_refl eq_refl eq_refl).
Defined.

Lemma read_handler_witness :
  exists w' : World,
    readAOResultAction_handler sample_client sample_JSON_parse
      sample_ZodError_message (runtime_with (Some initialized_service))
      {| content_text := valid_read_payload |} None empty_world
    = (Ok {| ActionResult.success := true;
             ActionResult.text := formatAOResult sample_result;
             ActionResult.error := None;
             ActionResult.data :=
               [("actionName", DValue (VStr "READ_AO_RESULT"));
                ("processId", DValue (VStr "PROCESS_ID_789"));
                ("messageId", DValue (VStr "MESSAGE_ID_012"));
                ("result", DResult sample_result)] |}, w')
    /\ client_calls (trace w')
       = [EResult {| result_process := "PROCESS_ID_789";
                     result_message := "MESSAGE_ID_012" |}].
Proof.
  exact (read_handler_reports_the_result
           sample_client sample_JSON_parse sample_ZodError_message
           (runtime_with (Some initialized_service))
           {| content_text := valid_read_payload |} empty_world
           initialized_service valid_read_payload valid_read_payload
           sample_result eq_refl eq_refl eq_refl eq_refl eq_refl).
Defined.

Lemma dry_run_handler_witness :
  exists w' : World,
    ActionResult.success
      <$> (match fst (dryRunAOAction_handler sample_client sample_JSON_parse
                        sample_ZodError_message
                        (runtime_with (Some initialized_service))
                        {| content_text := valid_dry_run_payload |} None
                        empty_world)
           with Ok r => Some r | Throw _ => None end) = Some true
    /\ client_calls
         (trace (snd (dryRunAOAction_handler sample_client sample_JSON_parse
                        sample_ZodError_message
                        (runtime_with (Some initialized_service))
                        {| content_text := valid_dry_run_payload |} None
                        empty_world)))
       = [EDryrun {| dryrun_process := "PROCESS_ID_789";
                     dryrun_data := "balance";
                     dryrun_tags :=
                       Some [{| tag_name := "Action"; tag_value := "Balance" |}];
                     dryrun_anchor := None |}]
    /\ w' = snd (dryRunAOAction_handler sample_client sample_JSON_parse
                   sample_ZodError_message
                   (runtime_with (Some initialized_service))
                   {| content_text := valid_dry_run_payload |} None empty_world).
Proof.
  destruct (dry_run_handler_reports_the_result
              sample_client sample_JSON_parse sample_ZodError_message
              (runtime_with (Some initialized_service))
              {| content_text := valid_dry_run_payload |} empty_world
              initialized_service valid_dry_run_payload valid_dry_run_payload
              {| Output := VObj [("balance", VNum 100)];
                 Messages := []; Spawns := []; Error := VNull |}
              eq_refl eq_refl eq_refl eq_refl eq_refl) as (w' & Hrun & Hcalls).
  exists w'. rewrite Hrun. cbn [fst snd]. repeat split. exact Hcalls.
Defined.

(** ** What the schemas accept and what they hand on *)

Lemma zod_string_spec (n : nat) (v out : value) :
  zod_parse (ZString n) v = Some out
  <-> exists s : string, v = VStr s /\ n <= String.length s /\ out = v.
Proof.
  cbn [zod_parse]. destruct v as [| | | |s| |]; try (split; [discriminate |]);
    try (intros (s0 & H & _); discriminate H).
  destruct (n <=? String.length s)%nat eqn:Hn.
  - apply Nat.leb_le in Hn. split.
    + intros H; inversion H. exists s. repeat split; assumption.
    + intros (s0 & _ & _ & ->). reflexivity.
  - apply Nat.leb_gt in Hn. split; [discriminate |].
    intros (s0 & H & Hle & _). inversion H; subst. lia.
Qed.

Lemma zod_optional_spec (inner : zod) (v out : value) :
  zod_parse (ZOptional inner) v = Some out
  <-> (v = VUndefined /\ out = VUndefined)
      \/ (v <> VUndefined /\ zod_parse inner v = Some out).
Proof.
  cbn [zod_parse]. destruct v;
    try (split; [intros H; right; split; [discriminate | exact H]
                | intros [[H _] | [_ H]]; [discriminate H | exact H]]).
  split.
  - intros H; inversion H. left. split; reflexivity.
  - intros [[_ ->] | [H _]]; [reflexivity | contradiction].
Qed.

Lemma zod_array_nil (element : zod) :
  zod_parse (ZArray element) (VArr []) = Some (VArr []).
Proof. reflexivity. Qed.

Lemma zod_array_cons (element : zod) (x : value) (items : list value) :
  zod_parse (ZArray element) (VArr (x :: items))
  = match zod_parse element x, zod_parse (ZArray element) (VArr items) with
    | Some y, Some (VArr ys) => Some (VArr (y :: ys))
    | _, _ => None
    end.
Proof.
  cbn [zod_parse]. destruct (zod_parse element x); [| reflexivity].
  match goal with |- context [option_map VArr (?F items)] => destruct (F items) end;
    reflexivity.
Qed.

Lemma zod_object_nil (props : list (string * value)) :
  zod_parse (ZObject []) (VObj props) = Some (VObj []).
Proof. reflexivity. Qed.

Lemma zod_object_cons (k : string) (s : zod) (rest : list (string * zod))
    (props : list (string * value)) :
  zod_parse (ZObject ((k, s) :: rest)) (VObj props)
  = match zod_parse s (get_prop k props), zod_parse (ZObject rest) (VObj props) with
    | Some o, Some (VObj outs) =>
        Some (VObj (if is_undefined o && negb (has_prop k props)
                    then outs else (k, o) :: outs))
    | _, _ => None
    end.
Proof.
  cbn [zod_parse]. destruct (zod_parse s (get_prop k props)); [| reflexivity].
  match goal with |- context [option_map VObj (?F rest)] => destruct (F rest) end;
    reflexivity.
Qed.

Lemma zod_object_only_objects (shape : list (string * zod)) (v out : value) :
  zod_parse (ZObject shape) v = Some out ->
  exists (props outs : list (string * value)), v = VObj props /\ out = VObj outs.
Proof.
  destruct v as [| | | | | |props]; cbn [zod_parse]; try discriminate.
  match goal with |- context [option_map VObj ?t] => destruct t as [outs|] end;
    cbn; [| discriminate].
  intros H; inversion H. now exists props, outs.
Qed.

Lemma tag_parse_spec (item out : value) :
  zod_parse tagSchema item = Some out
  <-> valid_tag item /\ out = value_of_tag (tag_of item).
Proof.
  unfold tagSchema, valid_tag, z_string.
  destruct item as [| | | | | |props];
    try (split; [discriminate | intros [(p & n & x & H & _) _]; discriminate H]).
  rewrite !zod_object_cons, zod_object_nil. cbn [zod_parse].
  unfold value_of_tag, tag_of. cbn [prop tag_name tag_value].
  destruct (get_prop "name" props) as [| | | |n| |] eqn:Hn;
    try (split; [discriminate
                | intros [(p & n0 & x & H & H1 & _) _]; inversion H; subst;
                  congruence]).
  destruct (get_prop "value" props) as [| | | |x| |] eqn:Hx;
    try (split; [discriminate
                | intros [(p & n0 & x0 & H & _ & H2) _]; inversion H; subst;
                  congruence]).
  cbn. split.
  - intros H; inversion H. split; [| reflexivity]. now exists props, n, x.
  - intros [_ ->]. reflexivity.
Qed.

Lemma tag_array_spec (items : list value) (out : value) :
  zod_parse (ZArray tagSchema) (VArr items) = Some out
  <-> Forall valid_tag items
      /\ out = VArr (List.map (fun item => value_of_tag (tag_of item)) items).
Proof.
  revert out. induction items as [|x items IH]; intros out.
  - rewrite zod_array_nil. split.
    + intros H; inversion H. split; [constructor | reflexivity].
    + intros [_ ->]. reflexivity.
  - rewrite zod_array_cons.
    destruct (zod_parse tagSchema x) as [y|] eqn:Hx.
    + apply tag_parse_spec in Hx as [Hvalid ->].
      destruct (zod_parse (ZArray tagSchema) (VArr items)) as [ys|] eqn:Hitems.
      * destruct (proj1 (IH ys) eq_refl) as [Hall ->]. split.
        -- intros H; inversion H. split; [now constructor | reflexivity].
        -- intros [_ ->]. reflexivity.
      * split; [discriminate |]. intros [Hall _]. inversion Hall; subst.
        assert (@None value
                = Some (VArr (List.map (fun item => value_of_tag (tag_of item))
                                items))) as Hsome
          by (apply IH; split; [assumption | reflexivity]).
        discriminate Hsome.
    + split; [discriminate |]. intros [Hall _]. inversion Hall; subst.
      assert (zod_parse tagSchema x = Some (value_of_tag (tag_of x))) as Hsome
        by (apply tag_parse_spec; split; [assumption | reflexivity]).
      congruence.
Qed.

(** What the tags schema accepts, and the tags it hands on. *)
Lemma tags_parse_spec (v out : value) :
  zod_parse tagsSchema v = Some out
  <-> optional_tags v
      /\ out = value_of_tags (optional_tags_field v).
Proof.
  unfold tagsSchema. fold z_string. fold tagSchema.
  rewrite zod_optional_spec. unfold optional_tags. split.
  - intros [[-> ->] | [Hne Hparse]].
    + split; [now left | reflexivity].
    + destruct v as [| | | | |items|]; try discriminate Hparse.
      apply tag_array_spec in Hparse as [Hall ->].
      split; [right; now exists items |].
      cbn. now rewrite List.map_map.
  - intros [[-> | (items & -> & Hall)] ->].
    + left. split; reflexivity.
    + right. split; [discriminate |]. apply tag_array_spec.
      split; [assumption |]. cbn. now rewrite List.map_map.
Qed.

Lemma is_undefined_spec (v : value) : is_undefined v = true -> v = VUndefined.
Proof. destruct v; cbn; congruence. Qed.

Lemma get_prop_head (k : string) (v : value) (props : list (string * value)) :
  get_prop k ((k, v) :: props) = v.
Proof. cbn. now rewrite String.eqb_refl. Qed.

Lemma get_prop_tail (k k' : string) (v : value) (props : list (string * value)) :
  k <> k' -> get_prop k ((k', v) :: props) = get_prop k props.
Proof.
  intros Hne. cbn. destruct (String.eqb_spec k k'); [contradiction | reflexivity].
Qed.

(** The output of an object schema: each key of the shape holds the parse of the
    property of the input, and there is no other key. *)
Lemma object_parse_fields (shape : list (string * zod))
    (props : list (string * value)) (out : value) :
  NoDup shape.*1 ->
  zod_parse (ZObject shape) (VObj props) = Some out ->
  (forall (k : string) (s : zod),
     (k, s) ∈ shape -> zod_parse s (get_prop k props) = Some (prop out k))
  /\ (forall k : string, k ∉ shape.*1 -> prop out k = VUndefined).
Proof.
  revert out. induction shape as [|[k0 s0] rest IH]; intros out Hnd Hparse.
  - rewrite zod_object_nil in Hparse. inversion Hparse; subst.
    split; [intros k s Hin; inversion Hin | reflexivity].
  - rewrite zod_object_cons in Hparse. cbn [fmap list_fmap fst] in Hnd.
    apply NoDup_cons in Hnd as [Hfresh Hnd].
    destruct (zod_parse s0 (get_prop k0 props)) as [o|] eqn:Ho; [| discriminate].
    destruct (zod_parse (ZObject rest) (VObj props)) as [outr|] eqn:Hrest;
      [| discriminate].
    destruct (zod_object_only_objects _ _ _ Hrest) as (p & outs & _ & ->).
    destruct (IH (VObj outs) Hnd eq_refl) as [Hfields Hother].
    cbn [prop] in Hfields, Hother. inversion Hparse; subst out. clear Hparse.
    assert (forall k : string,
              k <> k0 ->
              prop (VObj (if is_undefined o && negb (has_prop k0 props)
                          then outs else (k0, o) :: outs)) k
              = get_prop k outs) as Hskip.
    { intros k Hne. cbn [prop].
      destruct (is_undefined o && negb (has_prop k0 props));
        [reflexivity | now apply get_prop_tail]. }
    split.
    + intros k s Hin. apply elem_of_cons in Hin as [Heq | Hin].
      * inversion Heq; subst k s. rewrite Ho. f_equal. cbn [prop].
        destruct (is_undefined o && negb (has_prop k0 props)) eqn:Hc.
        -- apply andb_true_iff in Hc as [Hu _]. apply is_undefined_spec in Hu.
           subst o. symmetry. now apply Hother.
        -- symmetry. apply get_prop_head.
      * assert (k <> k0) as Hne.
        { intros ->. apply Hfresh. apply list_elem_of_fmap. now exists (k0, s). }
        rewrite (Hskip k Hne). now apply Hfields.
    + intros k Hk. cbn [fmap list_fmap fst] in Hk.
      apply not_elem_of_cons in Hk as [Hne Hk].
      rewrite (Hskip k Hne). now apply Hother.
Qed.

(** An object is accepted exactly when each key of the shape is. *)
Lemma object_parse_accepts (shape : list (string * zod))
    (props : list (string * value)) :
  is_Some (zod_parse (ZObject shape) (VObj props))
  <-> Forall (fun ks => is_Some (zod_parse (snd ks) (get_prop (fst ks) props))) shape.
Proof.
  induction shape as [|[k0 s0] rest IH].
  - rewrite zod_object_nil. split; [constructor | eauto].
  - rewrite zod_object_cons, Forall_cons. cbn [fst snd]. rewrite <- IH.
    destruct (zod_parse s0 (get_prop k0 props)) as [o|].
    + destruct (zod_parse (ZObject rest) (VObj props)) as [outr|] eqn:Hrest.
      * destruct (zod_object_only_objects _ _ _ Hrest) as (p & outs & _ & ->).
        split; [intros _; split; eauto | eauto].
      * split; [intros [x Hx]; discriminate | intros [_ [x Hx]]; discriminate].
    + split; [intros [x Hx]; discriminate | intros [[x Hx] _]; discriminate].
Qed.

Lemma accepts_nonempty_string (v : value) :
  is_Some (zod_parse (ZString 1) v) <-> nonempty_string v.
Proof.
  unfold nonempty_string. split.
  - intros [out H]. apply zod_string_spec in H as (s & -> & Hlen & _).
    exists s. split; [reflexivity |]. intros ->. cbn in Hlen. lia.
  - intros (s & -> & Hne). exists (VStr s). apply zod_string_spec.
    exists s. repeat split. destruct s; [contradiction | cbn; lia].
Qed.

Lemma accepts_optional_string (v : value) :
  is_Some (zod_parse (ZOptional z_string) v) <-> optional_string v.
Proof.
  unfold optional_string, z_string. split.
  - intros [out H]. apply zod_optional_spec in H as [[-> _] | [_ H]];
      [now left |].
    apply zod_string_spec in H as (s & -> & _). right. now exists s.
  - intros [-> | (s & ->)]; [now exists VUndefined |].
    exists (VStr s). reflexivity.
Qed.

Lemma accepts_optional_tags (v : value) :
  is_Some (zod_parse tagsSchema v) <-> optional_tags v.
Proof.
  split.
  - intros [out H]. now apply tags_parse_spec in H as [H _].
  - intros H. eexists. apply tags_parse_spec. split; [exact H | reflexivity].
Qed.

Ltac settle_acceptance :=
  match goal with
  | |- is_Some (zod_parse _ ?input) <-> _ =>
      destruct input as [| | | | | |?props];
      try (split; [intros [? Hx]; discriminate Hx
                  | intros (? & Hp & _); discriminate Hp])
  end;
  rewrite object_parse_accepts, !Forall_cons, Forall_nil; cbn [fst snd];
  rewrite ?accepts_nonempty_string, ?accepts_optional_string,
    ?accepts_optional_tags;
  split;
  [ intros ?;
    match goal with H : context [get_prop _ ?p] |- _ => exists p; tauto end
  | intros (? & Hp & ?); inversion Hp; subst; tauto ].

(** X20.  What the four schemas accept.  A spawn payload is an object whose
    module and scheduler are non-empty strings, whose data is absent or a string
    and whose tags are absent or an array of objects with a string name and a
    string value.  A send-message or dry-run payload is an object whose process
    and data are non-empty strings, with such tags and an anchor that is absent
    or a string.  A read-result payload is an object whose process and messageId
    are non-empty strings.  Other properties are allowed; null is not absent. *)
Theorem schemas_accept_exactly_the_valid_payloads (input : value) :
  (is_Some (zod_parse spawnProcessSchema input) <-> valid_spawn_input input)
  /\ (is_Some (zod_parse sendMessageSchema input) <-> valid_message_input input)
  /\ (is_Some (zod_parse dryRunSchema input) <-> valid_message_input input)
  /\ (is_Some (zod_parse readResultSchema input) <-> valid_read_input input).
Proof.
  unfold spawnProcessSchema, sendMessageSchema, dryRunSchema, readResultSchema,
    valid_spawn_input, valid_message_input, valid_read_input.
  split; [| split; [| split]]; settle_acceptance.
Qed.

Lemma string_parse_same (n : nat) (v o : value) :
  zod_parse (ZString n) v = Some o -> o = v.
Proof. intros H. now apply zod_string_spec in H as (s & _ & _ & ->). Qed.

Lemma optional_string_parse_same (v o : value) :
  zod_parse (ZOptional z_string) v = Some o -> o = v.
Proof.
  intros H. apply zod_optional_spec in H as [[-> ->] | [_ H]]; [reflexivity |].
  now apply string_parse_same in H.
Qed.

Lemma tags_parse_rebuilt (v o : value) :
  zod_parse tagsSchema v = Some o -> o = value_of_tags (optional_tags_field v).
Proof. intros H. now apply tags_parse_spec in H as [_ ->]. Qed.

Ltac solve_member :=
  solve [rewrite !elem_of_cons; repeat first [left; reflexivity | right]].

Ltac settle_forwarding :=
  match goal with
  | |- zod_parse (ZObject ?shape) ?input = Some ?out -> _ =>
      let H := fresh "H" in
      intros H;
      destruct (zod_object_only_objects _ _ _ H) as (?props & ?outs & -> & ->);
      let Hnd := fresh "Hnd" in
      assert (NoDup shape.*1) as Hnd
        by (apply (bool_decide_unpack _); vm_compute; exact I);
      let Hf := fresh "Hf" in
      let Ho := fresh "Ho" in
      destruct (object_parse_fields _ _ _ Hnd H) as [Hf Ho];
      cbn [prop] in *;
      repeat split;
      try (intros k Hk; apply Ho; exact Hk);
      first [ apply (string_parse_same 1); apply Hf; solve_member
            | apply optional_string_parse_same; apply Hf; solve_member
            | apply tags_parse_rebuilt; apply Hf; solve_member ]
  end.

(** X21.  What a schema hands on.  The validated input holds the string
    properties of the payload unchanged; its tags are the tags of the payload in
    the same order, duplicates kept, each reduced to its name and its value; and
    it has no property outside the schema, so whatever else the payload holds
    never reaches the service. *)
Theorem validated_input_carries_the_payload (input out : value) :
  (zod_parse spawnProcessSchema input = Some out ->
   prop out "module" = prop input "module"
   /\ prop out "scheduler" = prop input "scheduler"
   /\ prop out "data" = prop input "data"
   /\ prop out "tags" = value_of_tags (optional_tags_field (prop input "tags"))
   /\ (forall k : string,
         k ∉ ["module"; "scheduler"; "data"; "tags"] -> prop out k = VUndefined))
  /\ (zod_parse sendMessageSchema input = Some out ->
      prop out "process" = prop input "process"
      /\ prop out "data" = prop input "data"
      /\ prop out "tags" = value_of_tags (optional_tags_field (prop input "tags"))
      /\ prop out "anchor" = prop input "anchor"
      /\ (forall k : string,
            k ∉ ["process"; "data"; "tags"; "anchor"] -> prop out k = VUndefined))
  /\ (zod_parse dryRunSchema input = Some out ->
      prop out "process" = prop input "process"
      /\ prop out "data" = prop input "data"
      /\ prop out "tags" = value_of_tags (optional_tags_field (prop input "tags"))
      /\ prop out "anchor" = prop input "anchor"
      /\ (forall k : string,
            k ∉ ["process"; "data"; "tags"; "anchor"] -> prop out k = VUndefined))
  /\ (zod_parse readResultSchema input = Some out ->
      prop out "process" = prop input "process"
      /\ prop out "messageId" = prop input "messageId"
      /\ (forall k : string,
            k ∉ ["process"; "messageId"] -> prop out k = VUndefined)).
Proof.
  unfold spawnProcessSchema, sendMessageSchema, dryRunSchema, readResultSchema.
  split; [| split; [| split]]; settle_forwarding.
Qed.

(** The typed tags of a list of tag objects are read back unchanged: nothing of
    a validated tag is lost on the way to the service. *)
Lemma tags_round_trip (tags : option (list Tag)) :
  optional_tags_field (value_of_tags tags) = tags.
Proof.
  destruct tags as [l|]; [| reflexivity]. cbn. f_equal.
  rewrite List.map_map. induction l as [|[n x] l IH]; [reflexivity |].
  cbn [List.map]. now rewrite IH.
Qed.

(** ** The lines of a formatted result *)

Lemma count_nl_append (a b : string) :
  count_nl (a ++ b) = count_nl a + count_nl b.
Proof.
  induction a as [|c a IH]; [reflexivity |].
  rewrite append_cons. cbn [count_nl]. rewrite IH. lia.
Qed.

Lemma count_nl_uint (d : Decimal.uint) :
  count_nl (NilEmpty.string_of_uint d) = 0.
Proof. induction d; cbn; auto. Qed.

Lemma count_nl_number (z : Z) : count_nl (Z_to_string z) = 0.
Proof.
  unfold Z_to_string, NilEmpty.string_of_int.
  destruct (Z.to_int z); cbn; apply count_nl_uint.
Qed.

Lemma count_nl_quote_char (c : ascii) : count_nl (quote_char c) = 0.
Proof. destruct c as [[] [] [] [] [] [] [] []]; vm_compute; reflexivity. Qed.

Lemma count_nl_quote_json (s : string) : count_nl (quote_json s) = 0.
Proof.
  unfold quote_json. rewrite !count_nl_append.
  assert (count_nl (quote_body s) = 0) as ->.
  { induction s as [|c s IH]; [reflexivity |].
    cbn [quote_body]. now rewrite count_nl_append, count_nl_quote_char, IH. }
  reflexivity.
Qed.

Lemma serialize_undefined_only (indent : string) (v : value) :
  serialize indent v = None <-> v = VUndefined.
Proof.
  destruct v as [| |[]| | | |]; cbn; split; congruence.
Qed.

(** The printed properties of an object are none exactly when every property
    is undefined. *)
Lemma no_printed_property (indent : string) (props : list (string * value)) :
  List.flat_map
    (fun kv => match serialize indent (snd kv) with
               | Some str => [quote_json (fst kv) ++ ": " ++ str]
               | None => []
               end) props = []
  <-> forallb (fun kv => is_undefined (snd kv)) props = true.
Proof.
  induction props as [|[k v] props IH]; [split; reflexivity |].
  cbn [List.flat_map forallb snd fst].
  destruct (serialize indent v) as [str|] eqn:Hv.
  - assert (is_undefined v = false) as ->.
    { destruct v; try reflexivity. discriminate Hv. }
    split; discriminate.
  - apply serialize_undefined_only in Hv as ->. cbn. exact IH.
Qed.

(** A value printed with an indent has no newline when it prints on one line,
    and two or more otherwise. *)
Lemma count_nl_stringify (v : value) :
  if prints_on_one_line v
  then count_nl (JSON_stringify_2 v) = 0
  else 2 <= count_nl (JSON_stringify_2 v).
Proof.
  unfold JSON_stringify_2.
  destruct v as [| |[]| z | s | [|x items] | props]; cbn [prints_on_one_line];
    try reflexivity.
  - cbn. apply count_nl_number.
  - cbn [serialize]. apply count_nl_quote_json.
  - cbn [serialize List.map]. rewrite !count_nl_append.
    change (count_nl nl) with 1. lia.
  - cbn [serialize].
    destruct (forallb (fun kv => is_undefined (snd kv)) props) eqn:Hall.
    + apply (no_printed_property ("" ++ "  ")) in Hall. now rewrite Hall.
    + match goal with
      | |- context [match ?partial with [] => _ | _ => _ end] =>
          destruct partial as [|p partial'] eqn:Hp
      end.
      * apply no_printed_property in Hp. congruence.
      * rewrite !count_nl_append. change (count_nl nl) with 1. lia.
Qed.

(** X22.  The formatted result has exactly four lines exactly when the Output
    prints on one line and the Error is absent (falsy) or prints on one line;
    with a non-empty array or an object with a printed property in either place
    the text has six lines or more. *)
Theorem formatAOResult_has_four_lines_iff_flat (r : AOResult) :
  (count_nl (formatAOResult r) = 3
   <-> prints_on_one_line (Output r) = true
       /\ (truthy (Error r) = false \/ prints_on_one_line (Error r) = true))
  /\ (count_nl (formatAOResult r) <> 3 -> 5 <= count_nl (formatAOResult r)).
Proof.
  unfold formatAOResult. cbn [String.concat]. rewrite !count_nl_append.
  rewrite !count_nl_number ||
    (unfold nat_to_string; rewrite !count_nl_number).
  change (count_nl nl) with 1.
  change (count_nl "Output: ") with 0. change (count_nl "Messages: ") with 0.
  change (count_nl " message(s)") with 0. change (count_nl "Spawns: ") with 0.
  change (count_nl " spawn(s)") with 0. change (count_nl "Error: ") with 0.
  pose proof (count_nl_stringify (Output r)) as Hout.
  pose proof (count_nl_stringify (Error r)) as Herr.
  destruct (prints_on_one_line (Output r));
    destruct (truthy (Error r));
    destruct (prints_on_one_line (Error r));
    change (count_nl "None") with 0;
    (split; [split; [intros ?; split; [reflexivity || lia | auto; lia]
                    | intros [? [? | ?]]; try discriminate; lia]
            | lia]).
Qed.
